(** * Vantage Geo-AI: the orchestration core of [services/genai] and of the
      [TravelAgent] and [VeoGenerator] components, embedded in Rocq.

    The TypeScript sources are asynchronous functions talking to one hosted
    service.  They are modelled as computations in a small state-and-exception
    monad over a [World]: the stubbed service, the log of every external
    request and timer, and the React state of the two components. *)

From Stdlib Require Import QArith Lqa.
From stdpp Require Import base option list strings pretty gmap.

Set Warnings "-register-all".
Open Scope string_scope.

(** ** JavaScript strings

    Strings are sequences of code units below 256; the operations are the
    ones the sources call on [String.prototype]. *)
Module JSString.

(** [s.includes(sub)] *)
Fixpoint includes (s sub : string) : bool :=
  String.prefix sub s ||
  match s with
  | EmptyString => false
  | String _ rest => includes rest sub
  end.

(** The white space [trim] removes, among the code units below 256:
    TAB, LF, VT, FF, CR, SPACE and NBSP. *)
Definition isWhiteSpace (c : Ascii.ascii) : bool :=
  let n := Ascii.N_of_ascii c in
  ((9 <=? n) && (n <=? 13) || (n =? 32) || (n =? 160))%N.

Fixpoint trimStart (s : string) : string :=
  match s with
  | String c rest => if isWhiteSpace c then trimStart rest else s
  | EmptyString => EmptyString
  end.

Fixpoint trimEnd (s : string) : string :=
  match s with
  | String c rest =>
      match trimEnd rest with
      | EmptyString => if isWhiteSpace c then EmptyString else String c EmptyString
      | kept => String c kept
      end
  | EmptyString => EmptyString
  end.

(** [s.trim()] *)
Definition trim (s : string) : string := trimEnd (trimStart s).

(** Truthiness of a string: [!s] holds exactly for the empty string. *)
Definition truthy (s : string) : bool :=
  match s with EmptyString => false | String _ _ => true end.

(** [a || b] on strings. *)
Definition or_else (a b : string) : string := if truthy a then a else b.

(** [a || b] where [a] may be [undefined]. *)
Definition opt_or_else (a : option string) (b : string) : string :=
  match a with Some s => or_else s b | None => b end.

(** A possibly [undefined] string inside a template literal. *)
Definition template (a : option string) : string :=
  match a with Some s => s | None => "undefined" end.

(** [s] without the literal prefix [p], when it starts with it. *)
Fixpoint strip_prefix (p s : string) : option string :=
  match p, s with
  | EmptyString, _ => Some s
  | String a p', String b s' => if Ascii.eqb a b then strip_prefix p' s' else None
  | String _ _, EmptyString => None
  end.

(** [s.slice(0, n)] for a non-negative [n]. *)
Fixpoint slice0 (n : nat) (s : string) : string :=
  match n, s with
  | S n', String c rest => String c (slice0 n' rest)
  | _, _ => EmptyString
  end.

(** [items.join(sep)] *)
Fixpoint join (sep : string) (items : list string) : string :=
  match items with
  | [] => ""
  | [x] => x
  | x :: rest => x +:+ sep +:+ join sep rest
  end.

End JSString.

(** ** Errors *)

(** An [Error] object as thrown and caught: its [name] and its [message]. *)
Record JSError := mkJSError { err_name : string; err_message : string }.

(** [new Error(m)] *)
Definition Error (m : string) : JSError := mkJSError "Error" m.

(** [Error.prototype.toString] *)
Definition Error_toString (e : JSError) : string :=
  match err_name e, err_message e with
  | EmptyString, m => m
  | n, EmptyString => n
  | n, m => n +:+ ": " +:+ m
  end.

(** [formatError]: the one normaliser every service function rethrows through. *)
Definition formatError (error : JSError) : string :=
  let msg :=
    JSString.or_else (err_message error)
      (JSString.or_else (Error_toString error) "Unknown error") in
  if JSString.includes msg "API key" || JSString.includes msg "authentication" then
    "Authentication failed. Please check your API key settings."
  else if JSString.includes msg "429" then
    "Rate limit exceeded. The API is busy, please wait a moment and try again."
  else if JSString.includes msg "503" then
    "Service overloaded or unavailable. Please try again later."
  else if JSString.includes msg "SAFETY" then
    "The request was blocked due to safety settings."
  else
    "AI Request Failed: " +:+ msg.

(** ** JSON values

    [JSON.parse] yields an untyped value; the casts [as TravelPlan] and
    [as HiddenGem[]] are erased at run time, so the orchestrators hand on
    whatever was parsed. *)
Inductive JValue :=
| JNull
| JBool (b : bool)
| JNum (x : Q)
| JStr (s : string)
| JArr (items : list JValue)
| JObj (props : list (string * JValue)).

(** The built-ins of the host the sources rely on.  [JSON_parse] is [None]
    where [JSON.parse] throws a [SyntaxError]; the empty text is no JSON. *)
Class Runtime := {
  JSON_parse : string -> option JValue;
  JSON_parse_empty : JSON_parse "" = None;
  JSON_stringify : JValue -> string;
  Number_toString : Q -> string;
  URL_createObjectURL : string -> string
}.

(** ** The hosted service: requests, responses, jobs *)

(** ['16:9' | '9:16'] *)
Inductive AspectRatio := Ratio16x9 | Ratio9x16.


Record InlineData := { data : option string }.
Record Part := { part_text : option string; inlineData : option InlineData }.
Record Content := { parts : option (list Part) }.

(** What the maps tool attaches to a candidate: the sources it drew on. *)
Record MapsSource := { maps_uri : option string; maps_title : option string }.
Record GroundingChunk := { maps : option MapsSource }.
Record GroundingMetadata := { groundingChunks : option (list GroundingChunk) }.

Record Candidate := {
  content : option Content;
  groundingMetadata : option GroundingMetadata
}.
Record GenerateContentResponse := {
  text : option string;
  candidates : option (list Candidate)
}.

(** [contents] is either a prompt string or [{ parts: [{ text }] }]. *)
Inductive Contents :=
| ContentsText (prompt : string)
| ContentsParts (texts : list string).

(** [{ googleMaps: {} }], the one tool the sources ask for. *)
Inductive Tool := GoogleMaps.

Record GenerateContentConfig := {
  responseMimeType : option string;
  thinkingBudget : option Z;
  imageConfig_aspectRatio : option AspectRatio;
  tools : option (list Tool);
  systemInstruction : option string
}.

Record GenerateContentParameters := {
  gc_model : string;
  gc_contents : Contents;
  gc_config : option GenerateContentConfig
}.

Record GenerateVideosParameters := {
  gv_model : string;
  gv_prompt : string;
  gv_imageBytes : string;
  gv_mimeType : string;
  gv_numberOfVideos : Z;
  gv_resolution : string;
  gv_aspectRatio : AspectRatio
}.

Record Video := { uri : option string }.
Record GeneratedVideo := { video : option Video }.
Record GenerateVideosResponse := { generatedVideos : option (list GeneratedVideo) }.
Record OperationError := { error_message : option string }.

(** A video job as the service reports it; [op_name] is its handle. *)
Record Operation := {
  op_name : option string;
  done : bool;
  error : option OperationError;
  response : option GenerateVideosResponse
}.

(** What [fetch] resolves with: [ok] and the outcome of [blob()]. *)
Record FetchResponse := { ok : bool; blob : JSError + string }.

(** A chat session as [ai.chats.create] builds it. *)
Record Chat := { chat_model : string; chat_systemInstruction : string }.

(** The stubbed service: each call either rejects with an error or resolves. *)
Record Service := {
  API_KEY : option string;
  generateContent : GenerateContentParameters -> JSError + GenerateContentResponse;
  generateVideos : GenerateVideosParameters -> JSError + Operation;
  sendMessage : Chat -> string -> JSError + GenerateContentResponse;
  fetch : string -> JSError + FetchResponse
}.

(** Everything that leaves the process, in the order it is issued. *)
Inductive Event :=
| CallGenerateContent (p : GenerateContentParameters)
| CallGenerateVideos (p : GenerateVideosParameters)
| CallGetVideosOperation (operation : Operation)
| CallSendMessage (chat : Chat) (message : string)
| CallFetch (url : string)
| Timer (ms : Z).

(** ** React state of the two components *)

Inductive Mode := PlanMode | HiddenMode.

Inductive TabSection :=
| Overview | Disaster | Safety | Itinerary | Weather | Photography | Guide.

Inductive Role := User | Model.

(** [ChatMessage]: [id], [role], [text]; the optional fields are never set here. *)
Record ChatMessage := { msg_id : string; role : Role; msg_text : string }.

Record TravelAgentState := {
  location : string;
  loading : bool;
  mode : Mode;
  activeTab : TabSection;
  error_ : option string;
  travelData : option JValue;
  images : list string;
  imagesLoading : bool;
  hiddenSpots : option JValue;
  hiddenSpotImages : gmap string string;
  chatRef : option Chat;
  chatMessages : list ChatMessage;
  chatInput : string;
  chatLoading : bool
}.

Inductive VideoStatus := Idle | Generating | Completed | Errored.

Record VideoGenerationState := {
  status : VideoStatus;
  videoUri : option string;
  video_error : option string
}.

Record VeoGeneratorState := {
  locationName : string;
  videoState : VideoGenerationState;
  aspectRatio : AspectRatio;
  loadingStep : string
}.

(** ** The world and the monad of asynchronous computations *)

Record World := {
  service : Service;
  (** replies the service will give to the coming status queries, in order *)
  polls : list (JSError + Operation);
  (** the clock [Date.now()] reads; timers advance it *)
  now : Z;
  log : list Event;
  agent : TravelAgentState;
  veo : VeoGeneratorState
}.

(** How a promise ends: fulfilled, rejected, or not settled inside the
    scripted replies (the poll loop still waiting when [polls] runs out). *)
Inductive Outcome (A : Type) :=
| Return (a : A)
| Throw (e : JSError)
| Unsettled.
Arguments Return {A} a.
Arguments Throw {A} e.
Arguments Unsettled {A}.

Definition IO (A : Type) : Type := World -> Outcome A * World.

Definition ret {A} (a : A) : IO A := fun w => (Return a, w).

Definition throw {A} (e : JSError) : IO A := fun w => (Throw e, w).

Definition bind {A B} (m : IO A) (k : A -> IO B) : IO B :=
  fun w =>
    match m w with
    | (Return a, w') => k a w'
    | (Throw e, w') => (Throw e, w')
    | (Unsettled, w') => (Unsettled, w')
    end.

Notation "'let!' x ':=' m 'in' k" := (bind m (fun x => k))
  (at level 10, x name, m at level 200, k at level 200).

(** [try { m } catch (e) { h e }] *)
Definition try_catch {A} (m : IO A) (h : JSError -> IO A) : IO A :=
  fun w =>
    match m w with
    | (Throw e, w') => h e w'
    | settled => settled
    end.

(** [try { m } finally { f }], for an [f] that does not throw. *)
Definition finally {A} (m : IO A) (f : IO unit) : IO A :=
  fun w =>
    match m w with
    | (Unsettled, w') => (Unsettled, w')
    | (r, w') => (r, snd (f w'))
    end.

(** Promise of an outcome of the service: rejects or resolves. *)
Definition settle {A} (r : JSError + A) : IO A :=
  match r with inl e => throw e | inr a => ret a end.

(** [w] after the requests [events] have left, in that order. *)
Definition logged (events : list Event) (w : World) : World :=
  {| service := service w; polls := polls w; now := now w;
     log := log w ++ events; agent := agent w; veo := veo w |}.

Definition emit (e : Event) : IO unit := fun w => (Return tt, logged [e] w).

(** [await new Promise(resolve => setTimeout(resolve, ms))] *)
Definition setTimeout (ms : Z) : IO unit :=
  fun w => (Return tt,
            {| service := service w; polls := polls w; now := (now w + ms)%Z;
               log := log w ++ [Timer ms]; agent := agent w; veo := veo w |}).

Definition Date_now : IO Z := fun w => (Return (now w), w).

Definition env_API_KEY : IO (option string) := fun w => (Return (API_KEY (service w)), w).

Definition models_generateContent (p : GenerateContentParameters) : IO GenerateContentResponse :=
  let! _ := emit (CallGenerateContent p) in
  fun w => settle (generateContent (service w) p) w.

Definition models_generateVideos (p : GenerateVideosParameters) : IO Operation :=
  let! _ := emit (CallGenerateVideos p) in
  fun w => settle (generateVideos (service w) p) w.

Definition chat_sendMessage (c : Chat) (message : string) : IO GenerateContentResponse :=
  let! _ := emit (CallSendMessage c message) in
  fun w => settle (sendMessage (service w) c message) w.

Definition window_fetch (url : string) : IO FetchResponse :=
  let! _ := emit (CallFetch url) in
  fun w => settle (fetch (service w) url) w.

(** [operations.getVideosOperation({operation})]: the query is logged with the
    handle it carries, and answered by the next scripted reply. *)
Definition operations_getVideosOperation (operation : Operation) : IO Operation :=
  let! _ := emit (CallGetVideosOperation operation) in
  fun w =>
    match polls w with
    | [] => (Unsettled, w)
    | reply :: rest =>
        settle reply
          {| service := service w; polls := rest; now := now w;
             log := log w; agent := agent w; veo := veo w |}
    end.

Definition unsettled {A} : IO A := fun w => (Unsettled, w).

(** [await Promise.all(items.map(f))]: the requests leave in list order and
    every stubbed reply depends on its request alone, so running them in
    turn yields the same results and the same log. *)
Fixpoint Promise_all_map {A B} (f : A -> IO B) (items : list A) : IO (list B) :=
  match items with
  | [] => ret []
  | x :: rest =>
      let! y := f x in
      let! ys := Promise_all_map f rest in
      ret (y :: ys)
  end.

(** ** services/genai *)

Definition nl : string := String (Ascii.ascii_of_N 10) EmptyString.
Definition dq : string := String (Ascii.ascii_of_N 34) EmptyString.
(** [s] between double quotes, as it stands inside a prompt. *)
Definition q (s : string) : string := dq +:+ s +:+ dq.

(** [response.candidates?.[0]?.content?.parts || []] *)
Definition response_parts (response : GenerateContentResponse) : list Part :=
  default []
    (cs ← candidates response; candidate ← head cs; c ← content candidate; parts c).

(** The loop over the parts that returns at the first one with [inlineData]. *)
Fixpoint first_inline_image (ps : list Part) : option string :=
  match ps with
  | [] => None
  | part :: rest =>
      match inlineData part with
      | Some inline => Some ("data:image/png;base64," +:+ JSString.template (data inline))
      | None => first_inline_image rest
      end
  end.

Definition image_request (prompt : string) (config : option GenerateContentConfig)
  : GenerateContentParameters :=
  {| gc_model := "gemini-2.5-flash-image";
     gc_contents := ContentsParts [prompt];
     gc_config := config |}.

Definition preview_prompts (location : string) : list string :=
  ["A hyper-realistic, 4k, wide-angle photograph of " +:+ location +:+ ", daytime, clear blue sky, iconic view.";
   "A cinematic sunset photo of " +:+ location +:+ ", warm golden hour lighting, dramatic shadows, photorealistic.";
   "An aerial drone shot of " +:+ location +:+ ", showing surroundings and landscape, high detail, photorealistic."].

Definition generateLocationPreviews (location : string) : IO (list string) :=
  try_catch
    (let prompts := preview_prompts location in
     let! results :=
       Promise_all_map
         (fun prompt =>
            try_catch
              (let! response := models_generateContent (image_request prompt None) in
               ret (first_inline_image (response_parts response)))
              (fun e => ret None))
         prompts in
     ret (omap id results))
    (fun error => ret []).

Definition spot_prompt (spotName location : string) : string :=
  "A photorealistic travel photography shot of the hidden spot " +:+ dq +:+ spotName +:+ dq +:+ " in " +:+ location +:+ ". High quality, detailed, scenic, natural lighting.".

Definition generateSpotImage (spotName location : string) : IO (option string) :=
  try_catch
    (let! response :=
       models_generateContent (image_request (spot_prompt spotName location) None) in
     ret (first_inline_image (response_parts response)))
    (fun e => ret None).

Definition itinerary_prompt (location : string) : string :=
  JSString.join nl
    ["Create a comprehensive, structured travel guide for " +:+ location +:+ ".";
     "      ";
     "      Return the response in strictly valid JSON format.";
     "      Structure the JSON with the following keys:";
     "      ";
     "      {";
     "        " +:+ q "confidence" +:+ ": " +:+ q "High" +:+ " | " +:+ q "Medium" +:+ " | " +:+ q "Low" +:+ ",";
     "        " +:+ q "overview" +:+ ": " +:+ q "Brief summary of physical features (forests, beaches, mountains, etc.)" +:+ ",";
     "        " +:+ q "disaster_profile" +:+ ": {";
     "            " +:+ q "zone_type" +:+ ": " +:+ q "e.g., Earthquake prone zone" +:+ ",";
     "            " +:+ q "risk_score" +:+ ": " +:+ q "X/10" +:+ ",";
     "            " +:+ q "details" +:+ ": " +:+ q "Brief explanation of risks";
     "        },";
     "        " +:+ q "safety_measures" +:+ ": [" +:+ q "Measure 1" +:+ ", " +:+ q "Measure 2" +:+ "...],";
     "        " +:+ q "itinerary" +:+ ": [" +:+ q "Day 1: ..." +:+ ", " +:+ q "Day 2: ..." +:+ ", ...],";
     "        " +:+ q "weather" +:+ ": {";
     "            " +:+ q "crowd_levels" +:+ ": " +:+ q "Brief text summary of crowds" +:+ ",";
     "            " +:+ q "crowd_curve" +:+ ": [{" +:+ q "month" +:+ ": " +:+ q "Jan" +:+ ", " +:+ q "score" +:+ ": 45}, {" +:+ q "month" +:+ ": " +:+ q "Feb" +:+ ", " +:+ q "score" +:+ ": 50}, ... (for all 12 months, score 0-100 where 100 is max crowd)],";
     "            " +:+ q "best_time_to_visit" +:+ ": " +:+ q "Months/Seasons" +:+ ",";
     "            " +:+ q "forecast_summary" +:+ ": " +:+ q "Typical weather description";
     "        },";
     "        " +:+ q "photography" +:+ ": {";
     "            " +:+ q "basic_guide" +:+ ": " +:+ q "Best conditions, light level, terrain info" +:+ ",";
     "            " +:+ q "technical_settings" +:+ ": {";
     "                " +:+ q "iso" +:+ ": " +:+ q "Recommended ISO" +:+ ",";
     "                " +:+ q "shutter_speed" +:+ ": " +:+ q "Recommended Shutter" +:+ ",";
     "                " +:+ q "aperture" +:+ ": " +:+ q "Recommended Aperture" +:+ ",";
     "                " +:+ q "notes" +:+ ": " +:+ q "Other settings";
     "            }";
     "        },";
     "        " +:+ q "trip_guide" +:+ ": {";
     "            " +:+ q "transport_system" +:+ ": " +:+ q "How to get around" +:+ ",";
     "            " +:+ q "travel_tips" +:+ ": [" +:+ q "Tip 1" +:+ ", " +:+ q "Tip 2" +:+ "...],";
     "            " +:+ q "packing_suggestions" +:+ ": [" +:+ q "Item 1" +:+ ", " +:+ q "Item 2" +:+ "...],";
     "            " +:+ q "common_scams" +:+ ": " +:+ q "Scams to watch out for";
     "        }";
     "      }";
     "      ";
     "      Do not format markdown code blocks, just return raw JSON string."].

Definition chat_instruction (context : string) : string :=
  JSString.join nl
    ["You are a knowledgeable travel assistant. The user has just received a travel plan with the following details: ";
     "      ";
     "      " +:+ context;
     "      ";
     "      Answer their follow-up questions about this location, the itinerary, or travel advice. Keep answers helpful and concise."].

Definition hidden_spots_prompt (location : string) : string :=
  JSString.join nl
    ["Find exactly 5 unique hidden gems or secret spots in or near " +:+ location +:+ ".";
     "      Return strictly a JSON array of objects. No markdown.";
     "      Format: [{" +:+ q "name" +:+ ": " +:+ q "Spot Name" +:+ ", " +:+ q "description" +:+ ": " +:+ q "Short description of what it is" +:+ ", " +:+ q "location_hint" +:+ ": " +:+ q "Where is it roughly" +:+ "}]"].

Definition reference_prompt (location : string) (aspectRatio : AspectRatio) : string :=
  let ratioText :=
    match aspectRatio with
    | Ratio16x9 => "wide angle 16:9"
    | Ratio9x16 => "vertical 9:16"
    end in
  "A cinematic, photorealistic, high-quality shot of " +:+ location +:+ ". " +:+ ratioText +:+ ", clear view, sunny day.".

(** [/^data:image\/(png|jpeg|jpg);base64,/]: the alternatives of the group
    are tried from the left, each followed by the rest of the pattern. *)
Fixpoint match_alternatives (alts : list string) (suffix s : string) : option string :=
  match alts with
  | [] => None
  | alt :: others =>
      match JSString.strip_prefix (alt +:+ suffix) s with
      | Some rest => Some rest
      | None => match_alternatives others suffix s
      end
  end.

(** What follows the match of the pattern at the start of [s], if it matches. *)
Definition data_uri_match (s : string) : option string :=
  after ← JSString.strip_prefix "data:image/" s;
  match_alternatives ["png"; "jpeg"; "jpg"] ";base64," after.

(** [imageBase64.replace(/^data:image\/(png|jpeg|jpg);base64,/, "")] *)
Definition cleanBase64 (imageBase64 : string) : string :=
  match data_uri_match imageBase64 with
  | Some rest => "" +:+ rest
  | None => imageBase64
  end.

(** [operation.response?.generatedVideos?.[0]?.video?.uri] *)
Definition downloadLink (operation : Operation) : option string :=
  r ← response operation; videos ← generatedVideos r; first ← head videos;
  v ← video first; uri v.

(** The poll loop [while (!operation.done) { wait 5 s; re-query }].  The list
    mirrors the scripted replies still to come and bounds the recursion; the
    loop itself has no bound. *)
Fixpoint poll (script : list (JSError + Operation)) (operation : Operation) : IO Operation :=
  if done operation then ret operation
  else
    let! _ := setTimeout 5000 in
    match script with
    | [] =>
        let! _ := operations_getVideosOperation operation in
        unsettled
    | _ :: rest =>
        let! operation := operations_getVideosOperation operation in
        poll rest operation
    end.

Definition while_not_done (operation : Operation) : IO Operation :=
  fun w => poll (polls w) operation w.

(** The structured request of [generateDeepTravelItinerary]. *)
Definition itinerary_request (location : string) : GenerateContentParameters :=
  {| gc_model := "gemini-3-pro-preview";
     gc_contents := ContentsText (itinerary_prompt location);
     gc_config := Some {| responseMimeType := Some "application/json";
                          thinkingBudget := Some 32768%Z;
                          imageConfig_aspectRatio := None;
                          tools := None; systemInstruction := None |} |}.

(** The structured request of [searchHiddenSpots]. *)
Definition hidden_spots_request (location : string) : GenerateContentParameters :=
  {| gc_model := "gemini-2.5-flash";
     gc_contents := ContentsText (hidden_spots_prompt location);
     gc_config := Some {| responseMimeType := Some "application/json";
                          thinkingBudget := None;
                          imageConfig_aspectRatio := None;
                          tools := None; systemInstruction := None |} |}.

(** The job [generateDroneVideo] submits. *)
Definition videos_request (imageBytes prompt : string) (aspectRatio : AspectRatio)
  : GenerateVideosParameters :=
  {| gv_model := "veo-3.1-fast-generate-preview";
     gv_prompt := prompt;
     gv_imageBytes := imageBytes;
     gv_mimeType := "image/png";
     gv_numberOfVideos := 1;
     gv_resolution := "720p";
     gv_aspectRatio := aspectRatio |}.

(** The request of [generateReferenceImage]. *)
Definition reference_request (location : string) (aspectRatio : AspectRatio)
  : GenerateContentParameters :=
  image_request (reference_prompt location aspectRatio)
    (Some {| responseMimeType := None;
             thinkingBudget := None;
             imageConfig_aspectRatio := Some aspectRatio;
             tools := None; systemInstruction := None |}).

Section Services.
Context `{Runtime}.

Definition generateDeepTravelItinerary (location : string) : IO JValue :=
  try_catch
    (let! response := models_generateContent (itinerary_request location) in
     match text response with
     | Some (String c rest) =>
         try_catch
           (match JSON_parse (String c rest) with
            | Some data => ret data
            | None => throw (mkJSError "SyntaxError" "Unexpected token")
            end)
           (fun e => throw (Error "Failed to parse the travel plan data."))
     | _ => throw (Error "The model returned an empty response.")
     end)
    (fun error => throw (Error (formatError error))).

(** [ai.chats.create]: builds the session object, no request leaves. *)
Definition createTravelChat (context : string) : Chat :=
  {| chat_model := "gemini-3-pro-preview";
     chat_systemInstruction := chat_instruction context |}.

(** [spots.slice(0, 5)] on whatever was parsed: arrays and strings have a
    [slice]; on anything else the call throws a [TypeError]. *)
Definition slice_0_5 (spots : JValue) : IO JValue :=
  match spots with
  | JArr items => ret (JArr (take 5 items))
  | JStr s => ret (JStr (JSString.slice0 5 s))
  | _ => throw (mkJSError "TypeError" "spots.slice is not a function")
  end.

Definition searchHiddenSpots (location : string) : IO JValue :=
  try_catch
    (let! response := models_generateContent (hidden_spots_request location) in
     match text response with
     | Some (String c rest) =>
         try_catch
           (match JSON_parse (String c rest) with
            | Some spots => slice_0_5 spots
            | None => throw (mkJSError "SyntaxError" "Unexpected token")
            end)
           (fun e => throw (Error "Failed to parse hidden spots data."))
     | _ => throw (Error "No results found for hidden spots.")
     end)
    (fun error => throw (Error (formatError error))).

Definition generateReferenceImage (location : string) (aspectRatio : AspectRatio)
  : IO string :=
  try_catch
    (let! response := models_generateContent (reference_request location aspectRatio) in
     match first_inline_image (response_parts response) with
     | Some image => ret image
     | None => throw (Error "No image generated")
     end)
    (fun e => throw (Error (formatError e))).

Definition generateDroneVideo (imageBase64 prompt : string) (aspectRatio : AspectRatio)
  : IO string :=
  let cleanBase64 := cleanBase64 imageBase64 in
  try_catch
    (let! operation := models_generateVideos (videos_request cleanBase64 prompt aspectRatio) in
     let! operation := while_not_done operation in
     match error operation with
     | Some err =>
         throw (Error (JSString.opt_or_else (error_message err) "Video generation failed"))
     | None =>
         match downloadLink operation with
         | Some (String c rest) =>
             let! key := env_API_KEY in
             let! response :=
               window_fetch (String c rest +:+ "&key=" +:+ JSString.template key) in
             if ok response then
               let! blob := settle (blob response) in
               ret (URL_createObjectURL blob)
             else throw (Error "Failed to download video content")
         | _ => throw (Error "No video URI returned")
         end
     end)
    (fun e => throw (Error (formatError e))).

End Services.

(** ** React state updates

    [with_f v st] is [st] with field [f] replaced, what [setF(v)] commits. *)

Definition with_loading (v : bool) (st : TravelAgentState) : TravelAgentState :=
  {| location := location st; loading := v; mode := mode st; activeTab := activeTab st;
     error_ := error_ st; travelData := travelData st; images := images st;
     imagesLoading := imagesLoading st; hiddenSpots := hiddenSpots st;
     hiddenSpotImages := hiddenSpotImages st; chatRef := chatRef st;
     chatMessages := chatMessages st; chatInput := chatInput st;
     chatLoading := chatLoading st |}.

Definition with_mode (v : Mode) (st : TravelAgentState) : TravelAgentState :=
  {| location := location st; loading := loading st; mode := v; activeTab := activeTab st;
     error_ := error_ st; travelData := travelData st; images := images st;
     imagesLoading := imagesLoading st; hiddenSpots := hiddenSpots st;
     hiddenSpotImages := hiddenSpotImages st; chatRef := chatRef st;
     chatMessages := chatMessages st; chatInput := chatInput st;
     chatLoading := chatLoading st |}.

Definition with_activeTab (v : TabSection) (st : TravelAgentState) : TravelAgentState :=
  {| location := location st; loading := loading st; mode := mode st; activeTab := v;
     error_ := error_ st; travelData := travelData st; images := images st;
     imagesLoading := imagesLoading st; hiddenSpots := hiddenSpots st;
     hiddenSpotImages := hiddenSpotImages st; chatRef := chatRef st;
     chatMessages := chatMessages st; chatInput := chatInput st;
     chatLoading := chatLoading st |}.

Definition with_error (v : option string) (st : TravelAgentState) : TravelAgentState :=
  {| location := location st; loading := loading st; mode := mode st;
     activeTab := activeTab st; error_ := v; travelData := travelData st;
     images := images st; imagesLoading := imagesLoading st; hiddenSpots := hiddenSpots st;
     hiddenSpotImages := hiddenSpotImages st; chatRef := chatRef st;
     chatMessages := chatMessages st; chatInput := chatInput st;
     chatLoading := chatLoading st |}.

Definition with_travelData (v : option JValue) (st : TravelAgentState) : TravelAgentState :=
  {| location := location st; loading := loading st; mode := mode st;
     activeTab := activeTab st; error_ := error_ st; travelData := v; images := images st;
     imagesLoading := imagesLoading st; hiddenSpots := hiddenSpots st;
     hiddenSpotImages := hiddenSpotImages st; chatRef := chatRef st;
     chatMessages := chatMessages st; chatInput := chatInput st;
     chatLoading := chatLoading st |}.

Definition with_images (v : list string) (st : TravelAgentState) : TravelAgentState :=
  {| location := location st; loading := loading st; mode := mode st;
     activeTab := activeTab st; error_ := error_ st; travelData := travelData st;
     images := v; imagesLoading := imagesLoading st; hiddenSpots := hiddenSpots st;
     hiddenSpotImages := hiddenSpotImages st; chatRef := chatRef st;
     chatMessages := chatMessages st; chatInput := chatInput st;
     chatLoading := chatLoading st |}.

Definition with_imagesLoading (v : bool) (st : TravelAgentState) : TravelAgentState :=
  {| location := location st; loading := loading st; mode := mode st;
     activeTab := activeTab st; error_ := error_ st; travelData := travelData st;
     images := images st; imagesLoading := v; hiddenSpots := hiddenSpots st;
     hiddenSpotImages := hiddenSpotImages st; chatRef := chatRef st;
     chatMessages := chatMessages st; chatInput := chatInput st;
     chatLoading := chatLoading st |}.

Definition with_hiddenSpots (v : option JValue) (st : TravelAgentState) : TravelAgentState :=
  {| location := location st; loading := loading st; mode := mode st;
     activeTab := activeTab st; error_ := error_ st; travelData := travelData st;
     images := images st; imagesLoading := imagesLoading st; hiddenSpots := v;
     hiddenSpotImages := hiddenSpotImages st; chatRef := chatRef st;
     chatMessages := chatMessages st; chatInput := chatInput st;
     chatLoading := chatLoading st |}.

Definition with_hiddenSpotImages (v : gmap string string) (st : TravelAgentState) : TravelAgentState :=
  {| location := location st; loading := loading st; mode := mode st;
     activeTab := activeTab st; error_ := error_ st; travelData := travelData st;
     images := images st; imagesLoading := imagesLoading st; hiddenSpots := hiddenSpots st;
     hiddenSpotImages := v; chatRef := chatRef st; chatMessages := chatMessages st;
     chatInput := chatInput st; chatLoading := chatLoading st |}.

Definition with_chatRef (v : option Chat) (st : TravelAgentState) : TravelAgentState :=
  {| location := location st; loading := loading st; mode := mode st;
     activeTab := activeTab st; error_ := error_ st; travelData := travelData st;
     images := images st; imagesLoading := imagesLoading st; hiddenSpots := hiddenSpots st;
     hiddenSpotImages := hiddenSpotImages st; chatRef := v;
     chatMessages := chatMessages st; chatInput := chatInput st;
     chatLoading := chatLoading st |}.

Definition with_chatMessages (v : list ChatMessage) (st : TravelAgentState) : TravelAgentState :=
  {| location := location st; loading := loading st; mode := mode st;
     activeTab := activeTab st; error_ := error_ st; travelData := travelData st;
     images := images st; imagesLoading := imagesLoading st; hiddenSpots := hiddenSpots st;
     hiddenSpotImages := hiddenSpotImages st; chatRef := chatRef st; chatMessages := v;
     chatInput := chatInput st; chatLoading := chatLoading st |}.

Definition with_chatInput (v : string) (st : TravelAgentState) : TravelAgentState :=
  {| location := location st; loading := loading st; mode := mode st;
     activeTab := activeTab st; error_ := error_ st; travelData := travelData st;
     images := images st; imagesLoading := imagesLoading st; hiddenSpots := hiddenSpots st;
     hiddenSpotImages := hiddenSpotImages st; chatRef := chatRef st;
     chatMessages := chatMessages st; chatInput := v; chatLoading := chatLoading st |}.

Definition with_chatLoading (v : bool) (st : TravelAgentState) : TravelAgentState :=
  {| location := location st; loading := loading st; mode := mode st;
     activeTab := activeTab st; error_ := error_ st; travelData := travelData st;
     images := images st; imagesLoading := imagesLoading st; hiddenSpots := hiddenSpots st;
     hiddenSpotImages := hiddenSpotImages st; chatRef := chatRef st;
     chatMessages := chatMessages st; chatInput := chatInput st; chatLoading := v |}.

Definition with_videoState (v : VideoGenerationState) (st : VeoGeneratorState) : VeoGeneratorState :=
  {| locationName := locationName st; videoState := v; aspectRatio := aspectRatio st;
     loadingStep := loadingStep st |}.

Definition with_loadingStep (v : string) (st : VeoGeneratorState) : VeoGeneratorState :=
  {| locationName := locationName st; videoState := videoState st;
     aspectRatio := aspectRatio st; loadingStep := v |}.

Definition get_agent : IO TravelAgentState := fun w => (Return (agent w), w).

Definition get_veo : IO VeoGeneratorState := fun w => (Return (veo w), w).

Definition update_agent (f : TravelAgentState -> TravelAgentState) : IO unit :=
  fun w => (Return tt,
            {| service := service w; polls := polls w; now := now w;
               log := log w; agent := f (agent w); veo := veo w |}).

Definition update_veo (f : VeoGeneratorState -> VeoGeneratorState) : IO unit :=
  fun w => (Return tt,
            {| service := service w; polls := polls w; now := now w;
               log := log w; agent := agent w; veo := f (veo w) |}).

Definition setLoading (v : bool) : IO unit := update_agent (with_loading v).
Definition setMode (v : Mode) : IO unit := update_agent (with_mode v).
Definition setActiveTab (v : TabSection) : IO unit := update_agent (with_activeTab v).
Definition setError (v : option string) : IO unit := update_agent (with_error v).
Definition setTravelData (v : option JValue) : IO unit := update_agent (with_travelData v).
Definition setImages (v : list string) : IO unit := update_agent (with_images v).
Definition setImagesLoading (v : bool) : IO unit := update_agent (with_imagesLoading v).
Definition setHiddenSpots (v : option JValue) : IO unit := update_agent (with_hiddenSpots v).
Definition setHiddenSpotImages (f : gmap string string -> gmap string string) : IO unit :=
  update_agent (fun st => with_hiddenSpotImages (f (hiddenSpotImages st)) st).
Definition set_chatRef (v : option Chat) : IO unit := update_agent (with_chatRef v).
Definition setChatMessages (f : list ChatMessage -> list ChatMessage) : IO unit :=
  update_agent (fun st => with_chatMessages (f (chatMessages st)) st).
Definition setChatInput (v : string) : IO unit := update_agent (with_chatInput v).
Definition setChatLoading (v : bool) : IO unit := update_agent (with_chatLoading v).
Definition setVideoState (v : VideoGenerationState) : IO unit := update_veo (with_videoState v).
Definition setLoadingStep (v : string) : IO unit := update_veo (with_loadingStep v).

(** ** components/TravelAgent *)

Definition clearResults : IO unit :=
  let! _ := setTravelData None in
  let! _ := setHiddenSpots None in
  let! _ := setHiddenSpotImages (fun _ => ∅) in
  let! _ := setImages [] in
  let! _ := setError None in
  let! _ := setChatMessages (fun _ => []) in
  let! _ := set_chatRef None in
  setActiveTab Overview.

(** An own property of a parsed object (each key once); [None] is
    [undefined]. *)
Definition own_property (key : string) (props : list (string * JValue)) : option JValue :=
  snd <$> find (fun kv => String.eqb (fst kv) key) props.

(** [spot.name] on a parsed value: [null] has no properties, an object is
    looked up among its own properties, anything else has no [name]. *)
Definition spot_name (spot : JValue) : IO (option JValue) :=
  match spot with
  | JNull => throw (mkJSError "TypeError" "Cannot read properties of null (reading 'name')")
  | JObj props => ret (own_property "name" props)
  | _ => ret None
  end.

(** [!ref.current] *)
Definition is_null {A} (r : option A) : bool :=
  match r with None => true | Some _ => false end.

Section Components.
Context `{Runtime}.

(** The string a parsed value turns into inside a template literal or as a
    computed property key, [None] where the conversion throws a [TypeError].
    An object is converted by calling its [toString]: the inherited one
    gives ["[object Object]"]; an own property of that name shadows it and,
    being parsed data, cannot be called, and [valueOf] yields no primitive,
    so the conversion throws.  An array joins the strings of its items,
    [null] counting as the empty string. *)
Fixpoint ToString (v : JValue) : option string :=
  match v with
  | JNull => Some "null"
  | JBool b => Some (if b then "true" else "false")
  | JNum x => Some (Number_toString x)
  | JStr s => Some s
  | JArr items =>
      JSString.join "," <$>
        mapM (fun item => match item with JNull => Some "" | _ => ToString item end) items
  | JObj props =>
      match own_property "toString" props with
      | Some _ => None
      | None => Some "[object Object]"
      end
  end.

(** The same for a value that may be [undefined]. *)
Definition ToString_opt (v : option JValue) : option string :=
  match v with Some v => ToString v | None => Some "undefined" end.

(** [generateSpotImage(spot.name, location)]: the cast [as HiddenGem[]] is
    erased, so the name is whatever was parsed.  It is turned into a string
    where the prompt is built, inside the [try]: a name that cannot be
    converted throws there, before any request, and the call fulfils with
    [null]. *)
Definition generateSpotImage_named (spotName : option JValue) (location : string)
  : IO (option string) :=
  try_catch
    (let! name :=
       match ToString_opt spotName with
       | Some name => ret name
       | None => throw (mkJSError "TypeError" "Cannot convert object to primitive value")
       end in
     let! response :=
       models_generateContent (image_request (spot_prompt name location) None) in
     ret (first_inline_image (response_parts response)))
    (fun e => ret None).

(** The two streams of [handleDeepPlan] write disjoint state, so the
    preview stream is run to its end first; its three requests do leave
    before the text request. *)
Definition handleDeepPlan : IO unit :=
  let! st := get_agent in
  let location := location st in
  if negb (JSString.truthy location) then ret tt
  else
    let! _ := setLoading true in
    let! _ := clearResults in
    let! _ := setMode PlanMode in
    let! _ := setImagesLoading true in
    let! imgs := generateLocationPreviews location in
    let! _ := setImages imgs in
    let! _ := setImagesLoading false in
    finally
      (try_catch
         (let! result := generateDeepTravelItinerary location in
          let! _ := setTravelData (Some result) in
          let contextString := JSON_stringify result in
          let! _ := set_chatRef (Some (createTravelChat contextString)) in
          setChatMessages
            (fun _ =>
               [{| msg_id := "init"; role := Model;
                   msg_text := "I have analyzed the location. Ask me anything about the plan or the destination!" |}]))
         (fun e =>
            setError
              (Some (JSString.or_else (err_message e)
                       "An unexpected error occurred while generating the plan."))))
      (setLoading false).

(** One turn of [result.forEach]: the image request for a spot and, on a
    truthy reply, its entry in the image map.  The key [[spot.name]] is
    converted like the name in the prompt; an image only comes back when
    that conversion went through. *)
Definition spot_image (location : string) (spot : JValue) : IO unit :=
  let! name := spot_name spot in
  let! imgUrl := generateSpotImage_named name location in
  match imgUrl with
  | Some (String c rest) =>
      match ToString_opt name with
      | Some key => setHiddenSpotImages (fun prev => <[key := String c rest]> prev)
      | None => ret tt
      end
  | _ => ret tt
  end.

(** [result.forEach(spot => ...)]; only an array has a [forEach]. *)
Definition forEach_spot (result : JValue) (location : string) : IO unit :=
  match result with
  | JArr spots =>
      let! _ := Promise_all_map (spot_image location) spots in
      ret tt
  | JNull => throw (mkJSError "TypeError" "Cannot read properties of null (reading 'forEach')")
  | _ => throw (mkJSError "TypeError" "result.forEach is not a function")
  end.

Definition handleHiddenSpots : IO unit :=
  let! st := get_agent in
  let location := location st in
  if negb (JSString.truthy location) then ret tt
  else
    let! _ := setLoading true in
    let! _ := clearResults in
    let! _ := setMode HiddenMode in
    finally
      (try_catch
         (let! result := searchHiddenSpots location in
          let! _ := setHiddenSpots (Some result) in
          forEach_spot result location)
         (fun e =>
            setError
              (Some (JSString.or_else (err_message e)
                       "An unexpected error occurred while searching."))))
      (setLoading false).

Definition handleSendMessage : IO unit :=
  let! st := get_agent in
  let chatInput := chatInput st in
  if negb (JSString.truthy (JSString.trim chatInput)) || is_null (chatRef st)
  then ret tt
  else
    let userMsg := chatInput in
    let! _ := setChatInput "" in
    let! sent := Date_now in
    let! _ := setChatMessages
                (fun prev =>
                   (prev ++ [{| msg_id := Number_toString (inject_Z sent);
                                role := User; msg_text := userMsg |}])%list) in
    let! _ := setChatLoading true in
    finally
      (try_catch
         (let! st := get_agent in
          match chatRef st with
          | Some chat =>
              let! response := chat_sendMessage chat userMsg in
              let text := JSString.opt_or_else (text response) "I couldn't generate a response." in
              let! answered := Date_now in
              setChatMessages
                (fun prev =>
                   (prev ++ [{| msg_id := Number_toString (inject_Z (answered + 1));
                                role := Model; msg_text := text |}])%list)
          | None =>
              throw (mkJSError "TypeError" "Cannot read properties of null (reading 'sendMessage')")
          end)
         (fun err =>
            let! answered := Date_now in
            setChatMessages
              (fun prev =>
                 (prev ++ [{| msg_id := Number_toString (inject_Z (answered + 1));
                              role := Model;
                              msg_text := "Sorry, I encountered an error answering that." |}])%list)))
      (setChatLoading false).

(** ** components/VeoGenerator *)

Definition handleGenerate : IO unit :=
  let! st := get_veo in
  let locationName := locationName st in
  let aspectRatio := aspectRatio st in
  if negb (JSString.truthy locationName) then ret tt
  else
    let! _ := setVideoState {| status := Generating; videoUri := None; video_error := None |} in
    let! _ := setLoadingStep "Locating and capturing view (Image)..." in
    finally
      (try_catch
         (let! base64Data := generateReferenceImage locationName aspectRatio in
          let! _ := setLoadingStep "Simulating drone flight physics (Veo 3.1)..." in
          let prompt :=
            "Cinematic drone view of " +:+ locationName +:+
            ", realistic, high quality, 4k, continuous movement, detailed surroundings" in
          let! videoUrl := generateDroneVideo base64Data prompt aspectRatio in
          setVideoState {| status := Completed; videoUri := Some videoUrl; video_error := None |})
         (fun error =>
            setVideoState
              {| status := Errored; videoUri := None;
                 video_error := Some (JSString.or_else (err_message error) "Generation failed") |}))
      (setLoadingStep "").

End Components.

(** What one preview request contributes: its image, or nothing when the
    request rejects or its reply carries no image. *)
Definition preview_of (s : Service) (prompt : string) : option string :=
  match generateContent s (image_request prompt None) with
  | inl _ => None
  | inr response => first_inline_image (response_parts response)
  end.

(** The image a reply to an image request carries, read off the reply
    itself: the data of the first part with inline data, among the parts of
    the first candidate, behind the PNG data-URI prefix; none when the
    request is rejected or the reply has no such part. *)
Inductive image_of_reply : JSError + GenerateContentResponse -> option string -> Prop :=
| image_rejected (e : JSError) : image_of_reply (inl e) None
| image_missing (response : GenerateContentResponse) :
    (forall candidate others c ps,
       candidates response = Some (candidate :: others) ->
       content candidate = Some c ->
       parts c = Some ps ->
       Forall (fun part => inlineData part = None) ps) ->
    image_of_reply (inr response) None
| image_found (response : GenerateContentResponse) (candidate : Candidate)
    (others : list Candidate) (c : Content) (before : list Part) (part : Part)
    (after : list Part) (inline : InlineData) :
    candidates response = Some (candidate :: others) ->
    content candidate = Some c ->
    parts c = Some (before ++ part :: after)%list ->
    Forall (fun earlier => inlineData earlier = None) before ->
    inlineData part = Some inline ->
    image_of_reply (inr response)
      (Some ("data:image/png;base64," +:+ JSString.template (data inline))).

(** ** The trace of the poll loop *)

(** One wait of five seconds before each status query, for the operations
    the queries carry, in order. *)
Definition poll_events (queried : list Operation) : list Event :=
  flat_map (fun operation => [Timer 5000; CallGetVideosOperation operation]) queried.

(** [w] after those queries were answered, [rest] being the replies left. *)
Definition after_polls (queried : list Operation) (rest : list (JSError + Operation))
    (w : World) : World :=
  {| service := service w; polls := rest;
     now := (now w + 5000 * Z.of_nat (length queried))%Z;
     log := log w ++ poll_events queried; agent := agent w; veo := veo w |}.

(** The operations the status queries of a log carry, in order. *)
Definition status_queries (events : list Event) : list Operation :=
  omap (fun e => match e with CallGetVideosOperation operation => Some operation | _ => None end)
    events.

(** Whether [s] begins with the literal [p]. *)
Definition starts_with (p s : string) : bool :=
  match JSString.strip_prefix p s with Some _ => true | None => false end.

(** The texts [formatError] looks for. *)
Definition known_substrings : list string :=
  ["API key"; "authentication"; "429"; "503"; "SAFETY"].

Definition unclassified (msg : string) : bool :=
  forallb (fun known => negb (JSString.includes msg known)) known_substrings.

(** ** Notions the statements use *)

(** The strings [trim] empties: those made of white space only. *)
Fixpoint all_whitespace (s : string) : bool :=
  match s with
  | EmptyString => true
  | String c rest => JSString.isWhiteSpace c && all_whitespace rest
  end.

(** How the reply to the itinerary request settles the call. *)
Definition itinerary_outcome `{Runtime}
    (reply : JSError + GenerateContentResponse) : Outcome JValue :=
  match reply with
  | inl e => Throw (Error (formatError e))
  | inr response =>
      match text response with
      | Some (String c rest) =>
          match JSON_parse (String c rest) with
          | Some data => Return data
          | None => Throw (Error "AI Request Failed: Failed to parse the travel plan data.")
          end
      | _ => Throw (Error "AI Request Failed: The model returned an empty response.")
      end
  end.

(** How the reply to the hidden-spots request settles the call. *)
Definition hidden_spots_outcome `{Runtime}
    (reply : JSError + GenerateContentResponse) : Outcome JValue :=
  match reply with
  | inl e => Throw (Error (formatError e))
  | inr response =>
      match text response with
      | Some (String c rest) =>
          match JSON_parse (String c rest) with
          | Some (JArr items) => Return (JArr (take 5 items))
          | Some (JStr s) => Return (JStr (JSString.slice0 5 s))
          | _ => Throw (Error "AI Request Failed: Failed to parse hidden spots data.")
          end
      | _ => Throw (Error "AI Request Failed: No results found for hidden spots.")
      end
  end.

(** A text that is missing, empty, or that [JSON.parse] rejects. *)
Definition malformed `{Runtime} (t : option string) : Prop :=
  t = None \/ t = Some "" \/ exists s, t = Some s /\ JSON_parse s = None.

(** The messages [formatError] gives to the four kinds it recognises. *)
Definition classified_messages : list string :=
  ["Authentication failed. Please check your API key settings.";
   "Rate limit exceeded. The API is busy, please wait a moment and try again.";
   "Service overloaded or unavailable. Please try again later.";
   "The request was blocked due to safety settings."].

(** A computation that only ever adds to the log. *)
Definition grows {A} (m : IO A) : Prop :=
  forall w r w', m w = (r, w') -> exists events, log w' = (log w ++ events)%list.

(** ** The shape the travel plan is meant to have

    [plan.weather.crowd_curve] as the [TravelPlan] interface and the prompt
    describe it: twelve entries, each with a month name and a score between
    0 and 100.  This is the property to be checked, not code of the
    repository. *)
Definition field (key : string) (v : JValue) : option JValue :=
  match v with JObj props => own_property key props | _ => None end.

Definition crowd_entry_conforms (entry : JValue) : bool :=
  match field "month" entry, field "score" entry with
  | Some (JStr _), Some (JNum x) => Qle_bool 0 x && Qle_bool x 100
  | _, _ => false
  end.

Definition crowd_curve_conforms (plan : JValue) : bool :=
  match field "weather" plan ≫= field "crowd_curve" with
  | Some (JArr entries) => (length entries =? 12)%nat && forallb crowd_entry_conforms entries
  | _ => false
  end.

(** ** Fixtures: stubbed host and service for concrete runs *)
Module Stub.

(** A [JSON.parse] that knows the texts of [table] and rejects the rest. *)
Definition parse_table (table : list (string * JValue)) (t : string) : option JValue :=
  match t with
  | EmptyString => None
  | _ => snd <$> find (fun kv => String.eqb (fst kv) t) table
  end.

Definition runtime (table : list (string * JValue)) : Runtime :=
  {| JSON_parse := parse_table table;
     JSON_parse_empty := eq_refl;
     JSON_stringify := fun _ => "{}";
     Number_toString := fun x => pretty (Qnum x);
     URL_createObjectURL := fun blob => "blob:" +:+ blob |}.

Definition unavailable : JSError := Error "503 Service Unavailable".

(** A service whose every call rejects. *)
Definition down : Service :=
  {| API_KEY := Some "k";
     generateContent := fun _ => inl unavailable;
     generateVideos := fun _ => inl unavailable;
     sendMessage := fun _ _ => inl unavailable;
     fetch := fun _ => inl unavailable |}.

Definition agent0 (location chatInput : string) (chat : option Chat) : TravelAgentState :=
  {| location := location; loading := false; mode := PlanMode; activeTab := Overview;
     error_ := None; travelData := None; images := []; imagesLoading := false;
     hiddenSpots := None; hiddenSpotImages := ∅; chatRef := chat;
     chatMessages := []; chatInput := chatInput; chatLoading := false |}.

Definition veo0 (locationName : string) : VeoGeneratorState :=
  {| locationName := locationName;
     videoState := {| status := Idle; videoUri := None; video_error := None |};
     aspectRatio := Ratio16x9; loadingStep := "" |}.

Definition world (s : Service) (script : list (JSError + Operation))
    (a : TravelAgentState) (v : VeoGeneratorState) : World :=
  {| service := s; polls := script; now := 1700000000000; log := [];
     agent := a; veo := v |}.

(** Nothing typed anywhere, every call of the service rejecting. *)
Definition blank_world : World :=
  world down [] (agent0 "" "" None) (veo0 "").

(** A question typed, but no plan was generated, so no session is open. *)
Definition no_session_world : World :=
  world down [] (agent0 "Kyoto, Japan" "Where to stay?" None) (veo0 "").

Definition kyoto_chat : Chat :=
  {| chat_model := "gemini-3-pro-preview"; chat_systemInstruction := "Kyoto" |}.

(** A session is open and a question typed; the service rejects the send. *)
Definition failing_chat_world : World :=
  world down [] (agent0 "Kyoto, Japan" "Where to stay?" (Some kyoto_chat)) (veo0 "").

Definition text_reply (t : string) : GenerateContentResponse :=
  {| text := Some t; candidates := None |}.

(** Image requests reject; every other request is answered with [t]. *)
Definition text_only (t : string) : Service :=
  {| API_KEY := Some "k";
     generateContent := fun p =>
       if String.eqb (gc_model p) "gemini-2.5-flash-image"
       then inl unavailable else inr (text_reply t);
     generateVideos := fun _ => inl unavailable;
     sendMessage := fun _ _ => inl unavailable;
     fetch := fun _ => inl unavailable |}.

Definition searching (s : Service) : World :=
  world s [] (agent0 "Kyoto, Japan" "" None) (veo0 "").

(** A reply that is no JSON at all. *)
Definition prose : string := "Sure! Here is your plan:".

(** A well-formed plan whose crowd curve has one entry, scored 250. *)
Definition short_curve_text : string :=
  "{" +:+ q "weather" +:+ ":{" +:+ q "crowd_curve" +:+ ":[{" +:+ q "month" +:+ ":"
  +:+ q "Jan" +:+ "," +:+ q "score" +:+ ":250}]}}".

Definition short_curve_plan : JValue :=
  JObj [("weather",
         JObj [("crowd_curve",
                JArr [JObj [("month", JStr "Jan"); ("score", JNum 250)]])])].

Definition gem (name : string) : JValue :=
  JObj [("name", JStr name); ("description", JStr "quiet");
        ("location_hint", JStr "north")].

Definition gem_text (name : string) : string :=
  "{" +:+ q "name" +:+ ":" +:+ q name +:+ "," +:+ q "description" +:+ ":" +:+ q "quiet"
  +:+ "," +:+ q "location_hint" +:+ ":" +:+ q "north" +:+ "}".

Definition three_gems : list JValue := [gem "A"; gem "B"; gem "C"].

Definition three_gems_text : string :=
  "[" +:+ JSString.join "," (map gem_text ["A"; "B"; "C"]) +:+ "]".

(** The texts the stubbed [JSON.parse] knows. *)
Definition known : list (string * JValue) :=
  [(short_curve_text, short_curve_plan); (three_gems_text, JArr three_gems)].

Definition clip : GenerateVideosResponse :=
  {| generatedVideos :=
       Some [{| video := Some {| uri := Some "https://videos.example/clip?alt=media" |} |}] |}.

Definition pending_job : Operation :=
  {| op_name := Some "operations/veo-1"; done := false; error := None; response := None |}.

Definition finished_job : Operation :=
  {| op_name := Some "operations/veo-1"; done := true; error := None;
     response := Some clip |}.

Definition failed_job (reason : string) : Operation :=
  {| op_name := Some "operations/veo-1"; done := true;
     error := Some {| error_message := Some reason |}; response := None |}.

(** Every image request yields the picture [AAAA], every job starts as
    pending, every download succeeds. *)
Definition studio : Service :=
  {| API_KEY := Some "k";
     generateContent := fun _ =>
       inr {| text := None;
              candidates :=
                Some [{| content :=
                           Some {| parts :=
                                     Some [{| part_text := None;
                                              inlineData := Some {| data := Some "AAAA" |} |}] |};
                         groundingMetadata := None |}] |};
     generateVideos := fun _ => inr pending_job;
     sendMessage := fun _ _ => inl unavailable;
     fetch := fun _ => inr {| ok := true; blob := inr "mp4" |} |}.

(** The video page with a place typed, the job replies scripted. *)
Definition filming (script : list (JSError + Operation)) : World :=
  world studio script (agent0 "" "" None) (veo0 "Kyoto, Japan").

End Stub.

(** ** More fixtures *)
Module Scene.

(** As [Stub.studio], with the job already finished when it is submitted. *)
Definition instant_studio : Service :=
  {| API_KEY := Some "k";
     generateContent := generateContent Stub.studio;
     generateVideos := fun _ => inr Stub.finished_job;
     sendMessage := fun _ _ => inl Stub.unavailable;
     fetch := fetch Stub.studio |}.

Definition instant_filming : World :=
  Stub.world instant_studio [] (Stub.agent0 "" "" None) (Stub.veo0 "Kyoto, Japan").

(** A finished job that carries no video. *)
Definition empty_job : Operation :=
  {| op_name := Some "operations/veo-1"; done := true; error := None; response := None |}.

End Scene.

(** ** The image map of the hidden spots, as a value *)

Section SpotImages.
Context `{Runtime}.

(** The key and prompt name of a spot that is not [null]: its [name] turned
    into a string, where it can be. *)
Definition spot_key (spot : JValue) : option string :=
  ToString_opt (match spot with JObj props => own_property "name" props | _ => None end).

(** The image request that leaves for a spot: none when its name cannot be
    turned into a string. *)
Definition spot_request (place : string) (spot : JValue) : option Event :=
  key ← spot_key spot;
  Some (CallGenerateContent (image_request (spot_prompt key place) None)).

(** The image a spot of that name gets, when its request yields a truthy one. *)
Definition spot_picture (s : Service) (place key : string) : option string :=
  match preview_of s (spot_prompt key place) with
  | Some (String c rest) => Some (String c rest)
  | _ => None
  end.

(** The image map after the reply for one more spot came in. *)
Definition add_spot_picture (s : Service) (place : string)
    (prev : gmap string string) (spot : JValue) : gmap string string :=
  match spot_key spot with
  | Some key =>
      match spot_picture s place key with
      | Some image => <[key := image]> prev
      | None => prev
      end
  | None => prev
  end.

End SpotImages.

(** [w] after the image requests [events] left and the image map became [m]. *)
Definition pictured (events : list Event) (m : gmap string string) (w : World) : World :=
  {| service := service w; polls := polls w; now := now w;
     log := log w ++ events;
     agent := with_hiddenSpotImages m (agent w); veo := veo w |}.

Module Gallery.

(** A search whose reply is no JSON. *)
Definition prose_world : World := Stub.searching (Stub.text_only Stub.prose).

End Gallery.

Module Shadowed.

(** A spot whose name is an object with a [toString] entry of its own, and a
    spot whose name is an empty object. *)
Definition unprintable : JValue := JObj [("name", JObj [("toString", JNum 1)])].

Definition anonymous : JValue := JObj [("name", JObj [])].

Definition gems : list JValue := [Stub.gem "A"; Stub.gem "B"; unprintable; anonymous].

Definition text : string :=
  "[" +:+ Stub.gem_text "A" +:+ "," +:+ Stub.gem_text "B" +:+ ",{" +:+ q "name" +:+ ":{"
  +:+ q "toString" +:+ ":1}},{" +:+ q "name" +:+ ":{}}]".

(** The same spots cut short by a [null]. *)
Definition cut_gems : list JValue := [unprintable; Stub.gem "A"; JNull; Stub.gem "C"].

Definition cut_text : string :=
  "[{" +:+ q "name" +:+ ":{" +:+ q "toString" +:+ ":1}}," +:+ Stub.gem_text "A"
  +:+ ",null," +:+ Stub.gem_text "C" +:+ "]".

Definition known : list (string * JValue) := [(text, JArr gems); (cut_text, JArr cut_gems)].

(** Text requests are answered with [t]; image requests yield the picture
    [AAAA], except the one for the gem named B, which is rejected. *)
Definition service (t : string) : Service :=
  {| API_KEY := Some "k";
     generateContent := fun p =>
       if String.eqb (gc_model p) "gemini-2.5-flash-image" then
         match gc_contents p with
         | ContentsParts [prompt] =>
             if JSString.includes prompt (q "B") then inl Stub.unavailable
             else generateContent Stub.studio p
         | _ => inl Stub.unavailable
         end
       else inr (Stub.text_reply t);
     generateVideos := fun _ => inl Stub.unavailable;
     sendMessage := fun _ _ => inl Stub.unavailable;
     fetch := fun _ => inl Stub.unavailable |}.

Definition world : World := Stub.searching (service text).

Definition cut_world : World := Stub.searching (service cut_text).

End Shadowed.

Module Album.

(** A reply with one candidate: a caption, then a picture with the data [d]. *)
Definition picture (d : string) : GenerateContentResponse :=
  {| text := None;
     candidates :=
       Some [{| content :=
                  Some {| parts :=
                            Some [{| part_text := Some "Here it is."; inlineData := None |};
                                  {| part_text := None;
                                     inlineData := Some {| data := Some d |} |}] |};
                groundingMetadata := None |}] |}.

(** The sunset picture is rejected, the aerial one comes back as [AIR], any
    other picture as [DAY]; text requests are answered with a plan. *)
Definition service : Service :=
  {| API_KEY := Some "k";
     generateContent := fun p =>
       if String.eqb (gc_model p) "gemini-2.5-flash-image" then
         match gc_contents p with
         | ContentsParts [prompt] =>
             if JSString.includes prompt "sunset" then inl Stub.unavailable
             else if JSString.includes prompt "aerial" then inr (picture "AIR")
             else inr (picture "DAY")
         | _ => inl Stub.unavailable
         end
       else inr (Stub.text_reply Stub.short_curve_text);
     generateVideos := fun _ => inl Stub.unavailable;
     sendMessage := fun _ _ => inl Stub.unavailable;
     fetch := fun _ => inl Stub.unavailable |}.

Definition world : World := Stub.searching service.

End Album.

Module Chatting.

(** A reply without any text. *)
Definition silent : GenerateContentResponse := {| text := None; candidates := None |}.

(** Every send is answered, with that reply. *)
Definition service : Service :=
  {| API_KEY := Some "k";
     generateContent := fun _ => inl Stub.unavailable;
     generateVideos := fun _ => inl Stub.unavailable;
     sendMessage := fun _ _ => inr silent;
     fetch := fun _ => inl Stub.unavailable |}.

(** A session is open and a question typed. *)
Definition world : World :=
  Stub.world service []
    (Stub.agent0 "Kyoto, Japan" "Where to stay?" (Some Stub.kyoto_chat)) (Stub.veo0 "").

End Chatting.

(** ** The service functions and the React state *)

(** [w] with the state of the two components replaced. *)
Definition reframe (a : TravelAgentState) (v : VeoGeneratorState) (w : World) : World :=
  {| service := service w; polls := polls w; now := now w; log := log w;
     agent := a; veo := v |}.

(** A computation that neither reads nor writes the state of the
    components: run on other component state, it ends the same way and
    leaves that state alone. *)
Definition framed {A} (m : IO A) : Prop :=
  forall a v w, m (reframe a v w) = (fst (m w), reframe a v (snd (m w))).

(** The prompt [handleGenerate] gives the video job. *)
Definition drone_prompt (locationName : string) : string :=
  "Cinematic drone view of " +:+ locationName +:+
  ", realistic, high quality, 4k, continuous movement, detailed surroundings".

(** ** services/genai: searchLocationWithMaps *)

(** The reply to the maps-grounded request: a response of the service, read
    for its text and for the grounding of its first candidate. *)
Definition GroundedResponse : Type := GenerateContentResponse.

Definition grounded_text (response : GroundedResponse) : option string := text response.

(** What [searchLocationWithMaps] returns: [{ text, mapLink, mapTitle }]. *)
Record LocationResult := {
  found_text : string;
  mapLink : option string;
  mapTitle : option string
}.

Definition maps_prompt (query : string) : string :=
  "Find the location '" +:+ query +:+
  "'. Return a brief summary of what it is, exactly where it is, and its map coordinates if possible.".

(** The request [searchLocationWithMaps] sends. *)
Definition maps_request (query : string) : GenerateContentParameters :=
  {| gc_model := "gemini-2.5-flash";
     gc_contents := ContentsText (maps_prompt query);
     gc_config := Some {| responseMimeType := None;
                          thinkingBudget := None;
                          imageConfig_aspectRatio := None;
                          tools := Some [GoogleMaps];
                          systemInstruction :=
                            Some "You are a location finder helper. Be concise." |} |}.

(** One turn of [groundingChunks.forEach]: a chunk with [maps] overwrites
    link and title, any other chunk leaves them. *)
Definition take_maps_chunk (seen : option string * option string) (chunk : GroundingChunk)
  : option string * option string :=
  match maps chunk with
  | Some source => (maps_uri source, maps_title source)
  | None => seen
  end.

(** [response.candidates?.[0]?.groundingMetadata?.groundingChunks] *)
Definition grounding_chunks (response : GroundedResponse) : option (list GroundingChunk) :=
  cs ← candidates response; candidate ← head cs;
  metadata ← groundingMetadata candidate; groundingChunks metadata.

(** [searchLocationWithMaps], as a function of how the service settles the
    one request it sends for [query]. *)
Definition searchLocationWithMaps (query : string) (reply : JSError + GroundedResponse)
  : JSError + LocationResult :=
  match reply with
  | inl error => inl (Error (formatError error))
  | inr response =>
      match grounded_text response with
      | Some (String c rest) =>
          let seen :=
            match grounding_chunks response with
            | Some chunks => foldl take_maps_chunk (Some "", Some "") chunks
            | None => (Some "", Some "")
            end in
          inr {| found_text := String c rest; mapLink := fst seen; mapTitle := snd seen |}
      | _ => inl (Error (formatError (Error "No information found for this location.")))
      end
  end.

Module Maps.

(** [searchLocationWithMaps] with its request: the call leaves, and the
    reply of the service settles it. *)
Definition searchLocationWithMaps (query : string) : IO LocationResult :=
  try_catch
    (let! response := models_generateContent (maps_request query) in
     match text response with
     | Some (String c rest) =>
         let seen :=
           match grounding_chunks response with
           | Some chunks => foldl take_maps_chunk (Some "", Some "") chunks
           | None => (Some "", Some "")
           end in
         ret {| found_text := String c rest; mapLink := fst seen; mapTitle := snd seen |}
     | _ => throw (Error "No information found for this location.")
     end)
    (fun error => throw (Error (formatError error))).

End Maps.

(** ** components/LocationSearch and App *)

Record LocationSearchState := {
  ls_query : string;
  ls_loading : bool;
  ls_error : option string;
  ls_result : option LocationResult
}.

Definition with_ls_loading (v : bool) (st : LocationSearchState) : LocationSearchState :=
  {| ls_query := ls_query st; ls_loading := v; ls_error := ls_error st;
     ls_result := ls_result st |}.

Definition with_ls_error (v : option string) (st : LocationSearchState) : LocationSearchState :=
  {| ls_query := ls_query st; ls_loading := ls_loading st; ls_error := v;
     ls_result := ls_result st |}.

Definition with_ls_result (v : option LocationResult) (st : LocationSearchState)
  : LocationSearchState :=
  {| ls_query := ls_query st; ls_loading := ls_loading st; ls_error := ls_error st;
     ls_result := v |}.

(** The [LocationData] the search hands to the application. *)
Record LocationData := {
  ld_name : string;
  ld_mapLink : option string;
  ld_summary : option string
}.

(** [handleSearch].  The state of the search box is passed in and handed
    back, next to the calls of [onLocationFound] the handler made; the
    request goes through the service like every other. *)
Definition handleSearch (st : LocationSearchState)
  : IO (LocationSearchState * list LocationData) :=
  let query := ls_query st in
  if negb (JSString.truthy (JSString.trim query)) then ret (st, [])
  else
    let st := with_ls_loading true st in
    let st := with_ls_result None st in
    let st := with_ls_error None st in
    let! run :=
      try_catch
        (let! data := Maps.searchLocationWithMaps query in
         ret (with_ls_result (Some data) st,
              [{| ld_name := query; ld_mapLink := mapLink data;
                  ld_summary := Some (found_text data) |}]))
        (fun err =>
           ret (with_ls_error
                  (Some (JSString.or_else (err_message err)
                           "Failed to find location. Please try again.")) st,
                [])) in
    ret (with_ls_loading false (fst run), snd run).

(** [App]: [handleLocationFound] stores the location; the planner then starts
    with [initialLocation || ''], [initialLocation] being
    [currentLocation?.name]. *)
Definition handleLocationFound (loc : LocationData) (current : option LocationData)
  : option LocationData := Some loc.

Definition planner_location (current : option LocationData) : string :=
  JSString.opt_or_else (ld_name <$> current) "".

(** ** Names of the saved files *)

(** [s.replace(/\s+/g, '_')]: every run of white space becomes one
    underscore; [in_run] tells that the character before was white space. *)
Fixpoint underscore_runs (in_run : bool) (s : string) : string :=
  match s with
  | EmptyString => EmptyString
  | String c rest =>
      if JSString.isWhiteSpace c then
        if in_run then underscore_runs true rest
        else String (Ascii.ascii_of_N 95) (underscore_runs true rest)
      else String c (underscore_runs false rest)
  end.

(** The name [handleSavePlan] saves the plan under. *)
Definition plan_filename (location : string) : string :=
  "travel_plan_" +:+ underscore_runs false location +:+ ".txt".



(** ** The crowd chart *)

(** [getCrowdColor] *)
Definition getCrowdColor (score : Q) : string :=
  if negb (Qle_bool score 70) then "bg-red-400 shadow-red-200"
  else if negb (Qle_bool score 40) then "bg-yellow-400 shadow-yellow-200"
  else "bg-emerald-400 shadow-emerald-200".

(** [Math.max(d.score, 5)], the height of a bar in percent. *)
Definition bar_height (score : Q) : Q := if Qle_bool 5 score then score else 5.

Module Finder.

Definition fuji : MapsSource :=
  {| maps_uri := Some "https://maps.example/fuji"; maps_title := Some "Mount Fuji" |}.

Definition grounded (chunks : list GroundingChunk) : GroundedResponse :=
  {| text := Some "A volcano on Honshu.";
     candidates :=
       Some [{| content := None;
                groundingMetadata := Some {| groundingChunks := Some chunks |} |}] |}.

(** A query typed with spaces around it, nothing searched yet. *)
Definition typed : LocationSearchState :=
  {| ls_query := " Mount Fuji "; ls_loading := false; ls_error := None; ls_result := None |}.

(** Every request is answered with a text grounded on [chunks]. *)
Definition service (chunks : list GroundingChunk) : Service :=
  {| API_KEY := Some "k";
     generateContent := fun _ => inr (grounded chunks);
     generateVideos := fun _ => inl Stub.unavailable;
     sendMessage := fun _ _ => inl Stub.unavailable;
     fetch := fun _ => inl Stub.unavailable |}.

End Finder.

(** * Properties *)

(** Unfolds the monad and the primitives, then computes. *)
Ltac io_run :=
  unfold finally, try_catch, bind, ret, throw, unsettled, settle, emit,
    get_agent, get_veo, update_agent, update_veo, Date_now, env_API_KEY,
    models_generateContent, models_generateVideos, chat_sendMessage,
    window_fetch, operations_getVideosOperation,
    setLoading, setMode, setActiveTab, setError, setTravelData, setImages,
    setImagesLoading, setHiddenSpots, setHiddenSpotImages, set_chatRef,
    setChatMessages, setChatInput, setChatLoading, setVideoState, setLoadingStep;
  cbn.

Arguments generateLocationPreviews : simpl never.
Arguments generateSpotImage : simpl never.
Arguments generateDeepTravelItinerary : simpl never.
Arguments searchHiddenSpots : simpl never.
Arguments generateReferenceImage : simpl never.
Arguments generateDroneVideo : simpl never.
Arguments while_not_done : simpl never.
Arguments preview_prompts : simpl never.
Arguments itinerary_request : simpl never.
Arguments hidden_spots_request : simpl never.
Arguments reference_request : simpl never.
Arguments videos_request : simpl never.
Arguments image_request : simpl never.
Arguments formatError : simpl never.
Arguments cleanBase64 : simpl never.
Arguments JSString.includes : simpl never.

(** ** Strings *)

Lemma trimStart_blank (s : string) :
  all_whitespace s = true -> JSString.trimStart s = "".
Proof.
  induction s as [|c rest IH]; simpl; [reflexivity|].
  intros [Hc Hrest]%andb_prop. rewrite Hc. auto.
Qed.

Lemma trimEnd_empty_head (c : Ascii.ascii) (rest : string) :
  JSString.trimEnd (String c rest) = "" -> JSString.isWhiteSpace c = true.
Proof.
  simpl. destruct (JSString.trimEnd rest); [|discriminate].
  destruct (JSString.isWhiteSpace c); [reflexivity|discriminate].
Qed.

Lemma trim_empty_iff (s : string) :
  JSString.trim s = "" <-> all_whitespace s = true.
Proof.
  unfold JSString.trim. split.
  - induction s as [|c rest IH]; [reflexivity|].
    simpl. destruct (JSString.isWhiteSpace c) eqn:Hc; [exact IH|].
    intros Hend%trimEnd_empty_head. congruence.
  - intros Hs. rewrite trimStart_blank by exact Hs. reflexivity.
Qed.

(** ** Guards of the handlers *)

(** C10: with an empty location, [handleDeepPlan], [handleHiddenSpots] and the
    video [handleGenerate] each return at once: the world they leave is the
    world they found, so no request was issued, nothing was cleared and no
    state field changed. *)
Theorem empty_location_is_noop `{Runtime} (w : World) :
  (location (agent w) = "" -> handleDeepPlan w = (Return tt, w)) /\
  (location (agent w) = "" -> handleHiddenSpots w = (Return tt, w)) /\
  (locationName (veo w) = "" -> handleGenerate w = (Return tt, w)).
Proof.
  repeat split; intros Hempty.
  - unfold handleDeepPlan, bind, get_agent. rewrite Hempty. reflexivity.
  - unfold handleHiddenSpots, bind, get_agent. rewrite Hempty. reflexivity.
  - unfold handleGenerate, bind, get_veo. rewrite Hempty. reflexivity.
Qed.

Lemma empty_location_is_noop_witness :
  @handleDeepPlan (Stub.runtime []) Stub.blank_world = (Return tt, Stub.blank_world) /\
  @handleHiddenSpots (Stub.runtime []) Stub.blank_world = (Return tt, Stub.blank_world) /\
  @handleGenerate (Stub.runtime []) Stub.blank_world = (Return tt, Stub.blank_world).
Proof.
  destruct (@empty_location_is_noop (Stub.runtime []) Stub.blank_world)
    as (plan & hidden & video).
  split; [|split]; [apply plan | apply hidden | apply video]; reflexivity.
Defined.

(** C9: sending while no session is open, or with an input that is empty or
    white space only, returns at once and leaves the world as it was: no
    request, no transcript change, no other state change. *)
Theorem send_without_session_is_noop `{Runtime} (w : World) :
  chatRef (agent w) = None \/ all_whitespace (chatInput (agent w)) = true ->
  handleSendMessage w = (Return tt, w).
Proof.
  intros Hguard. unfold handleSendMessage, bind, get_agent.
  destruct Hguard as [Hclosed | Hblank].
  - rewrite Hclosed.
    destruct (negb (JSString.truthy (JSString.trim (chatInput (agent w))))); reflexivity.
  - apply trim_empty_iff in Hblank. rewrite Hblank. reflexivity.
Qed.

Lemma send_without_session_is_noop_witness :
  @handleSendMessage (Stub.runtime []) Stub.no_session_world
  = (Return tt, Stub.no_session_world).
Proof.
  apply (@send_without_session_is_noop (Stub.runtime []) Stub.no_session_world).
  left. reflexivity.
Defined.

(** ** Conversational follow-up *)

Lemma trim_truthy (s : string) :
  all_whitespace s = false -> JSString.truthy (JSString.trim s) = true.
Proof.
  intros Hs. destruct (JSString.trim s) eqn:Htrim; [|reflexivity].
  apply trim_empty_iff in Htrim. congruence.
Qed.

(** C8: when the send fails, the handler still returns; the transcript is the
    old one, then the user's message, then one model message with the fixed
    text; the error field is untouched and the error's own text appears
    nowhere; one request left. *)
Theorem send_failure_appends_fallback `{Runtime}
    (w : World) (chat : Chat) (e : JSError) :
  chatRef (agent w) = Some chat ->
  all_whitespace (chatInput (agent w)) = false ->
  sendMessage (service w) chat (chatInput (agent w)) = inl e ->
  exists w',
    handleSendMessage w = (Return tt, w') /\
    chatMessages (agent w') =
      ((chatMessages (agent w)
        ++ [{| msg_id := Number_toString (inject_Z (now w));
               role := User; msg_text := chatInput (agent w) |}])
        ++ [{| msg_id := Number_toString (inject_Z (now w + 1));
               role := Model;
               msg_text := "Sorry, I encountered an error answering that." |}])%list /\
    error_ (agent w') = error_ (agent w) /\
    chatRef (agent w') = Some chat /\
    chatLoading (agent w') = false /\
    log w' = (log w ++ [CallSendMessage chat (chatInput (agent w))])%list.
Proof.
  intros Hchat Hinput Hsend.
  unfold handleSendMessage, bind at 1, get_agent.
  rewrite (trim_truthy _ Hinput), Hchat.
  io_run. rewrite Hchat. io_run. rewrite Hsend. io_run.
  eexists. split; [reflexivity|]. cbn.
  repeat split; try assumption.
Qed.

Lemma send_failure_appends_fallback_witness :
  exists w',
    @handleSendMessage (Stub.runtime []) Stub.failing_chat_world = (Return tt, w') /\
    map role (chatMessages (agent w')) = [User; Model] /\
    map msg_text (chatMessages (agent w')) =
      ["Where to stay?"; "Sorry, I encountered an error answering that."].
Proof.
  destruct (@send_failure_appends_fallback (Stub.runtime []) Stub.failing_chat_world
              Stub.kyoto_chat Stub.unavailable eq_refl eq_refl eq_refl)
    as (w' & Hrun & Hmessages & _).
  exists w'. split; [exact Hrun|]. rewrite Hmessages. split; reflexivity.
Defined.

(** ** The log only grows *)

Lemma logged_nil (w : World) : logged [] w = w.
Proof. destruct w. unfold logged. cbn. rewrite app_nil_r. reflexivity. Qed.

Lemma logged_logged (a b : list Event) (w : World) :
  logged b (logged a w) = logged (a ++ b) w.
Proof. unfold logged. cbn. rewrite app_assoc. reflexivity. Qed.

(** ** Preview images *)

Lemma preview_request_run (prompt : string) (w : World) :
  try_catch
    (let! response := models_generateContent (image_request prompt None) in
     ret (first_inline_image (response_parts response)))
    (fun e => ret None) w
  = (Return (preview_of (service w) prompt),
     logged [CallGenerateContent (image_request prompt None)] w).
Proof.
  unfold preview_of. io_run.
  destruct (generateContent (service w) (image_request prompt None)); reflexivity.
Qed.

Lemma preview_requests_run (prompts : list string) (w : World) :
  Promise_all_map
    (fun prompt =>
       try_catch
         (let! response := models_generateContent (image_request prompt None) in
          ret (first_inline_image (response_parts response)))
         (fun e => ret None))
    prompts w
  = (Return (map (preview_of (service w)) prompts),
     logged (map (fun prompt => CallGenerateContent (image_request prompt None)) prompts) w).
Proof.
  revert w. induction prompts as [|prompt rest IH]; intros w.
  - cbn. rewrite logged_nil. reflexivity.
  - cbn [Promise_all_map]. unfold bind at 1. rewrite preview_request_run.
    unfold bind at 1. rewrite IH. unfold ret. rewrite logged_logged. reflexivity.
Qed.

Lemma omap_id_map {A B} (f : A -> option B) (l : list A) :
  omap id (map f l) = omap f l.
Proof. induction l as [|x l IH]; cbn; [reflexivity|]. rewrite IH. reflexivity. Qed.

(** [generateLocationPreviews] always fulfils, with the images of the
    requests that produced one, in request order. *)
Lemma generateLocationPreviews_run (location : string) (w : World) :
  generateLocationPreviews location w
  = (Return (omap (preview_of (service w)) (preview_prompts location)),
     logged (map (fun prompt => CallGenerateContent (image_request prompt None))
               (preview_prompts location)) w).
Proof.
  unfold generateLocationPreviews, try_catch, bind.
  rewrite preview_requests_run. unfold ret. rewrite omap_id_map. reflexivity.
Qed.

(** ** Structured responses *)

Lemma generateDeepTravelItinerary_run `{Runtime} (location : string) (w : World) :
  generateDeepTravelItinerary location w
  = (itinerary_outcome (generateContent (service w) (itinerary_request location)),
     logged [CallGenerateContent (itinerary_request location)] w).
Proof.
  unfold generateDeepTravelItinerary, itinerary_outcome. io_run.
  destruct (generateContent (service w) (itinerary_request location)) as [e|response];
    [reflexivity|].
  cbn. destruct (text response) as [[|c rest]|]; [reflexivity| |reflexivity].
  destruct (JSON_parse (String c rest)); reflexivity.
Qed.

Lemma searchHiddenSpots_run `{Runtime} (location : string) (w : World) :
  searchHiddenSpots location w
  = (hidden_spots_outcome (generateContent (service w) (hidden_spots_request location)),
     logged [CallGenerateContent (hidden_spots_request location)] w).
Proof.
  unfold searchHiddenSpots, hidden_spots_outcome. io_run.
  destruct (generateContent (service w) (hidden_spots_request location)) as [e|response];
    [reflexivity|].
  cbn. destruct (text response) as [[|c rest]|]; [reflexivity| |reflexivity].
  destruct (JSON_parse (String c rest)) as [[]|]; reflexivity.
Qed.

Ltac not_classified :=
  unfold classified_messages; rewrite !not_elem_of_cons;
  repeat split; [discriminate.. | apply not_elem_of_nil].

Tactic Notation "rejects_with" tactic(side) :=
  eexists; split; [reflexivity|]; split; [side; reflexivity | not_classified].

(** C6: on a structured reply whose text is missing, empty or not JSON, both
    orchestrators reject, and return no value.  The message is one of two
    fixed texts per orchestrator and differs from the message of every kind
    [formatError] recognises. *)
Theorem malformed_response_aborts `{Runtime}
    (location : string) (w : World) (response : GenerateContentResponse) :
  malformed (text response) ->
  (generateContent (service w) (itinerary_request location) = inr response ->
   exists m,
     generateDeepTravelItinerary location w
     = (Throw (Error m), logged [CallGenerateContent (itinerary_request location)] w) /\
     (m = "AI Request Failed: The model returned an empty response." \/
      m = "AI Request Failed: Failed to parse the travel plan data.") /\
     m ∉ classified_messages) /\
  (generateContent (service w) (hidden_spots_request location) = inr response ->
   exists m,
     searchHiddenSpots location w
     = (Throw (Error m), logged [CallGenerateContent (hidden_spots_request location)] w) /\
     (m = "AI Request Failed: No results found for hidden spots." \/
      m = "AI Request Failed: Failed to parse hidden spots data.") /\
     m ∉ classified_messages).
Proof.
  intros Hbad. split; intros Hreply.
  - rewrite generateDeepTravelItinerary_run, Hreply. cbn.
    destruct Hbad as [-> | [-> | ([|c rest] & -> & Hparse)]];
      [rejects_with left | rejects_with left | rejects_with left |].
    rewrite Hparse. rejects_with right.
  - rewrite searchHiddenSpots_run, Hreply. cbn.
    destruct Hbad as [-> | [-> | ([|c rest] & -> & Hparse)]];
      [rejects_with left | rejects_with left | rejects_with left |].
    rewrite Hparse. rejects_with right.
Qed.

Lemma malformed_response_aborts_witness :
  (exists m,
     fst (@generateDeepTravelItinerary (Stub.runtime Stub.known) "Kyoto, Japan"
            (Stub.searching (Stub.text_only Stub.prose)))
     = Throw (Error m) /\ m ∉ classified_messages) /\
  (exists m,
     fst (@searchHiddenSpots (Stub.runtime Stub.known) "Kyoto, Japan"
            (Stub.searching (Stub.text_only Stub.prose)))
     = Throw (Error m) /\ m ∉ classified_messages).
Proof.
  destruct (@malformed_response_aborts (Stub.runtime Stub.known) "Kyoto, Japan"
              (Stub.searching (Stub.text_only Stub.prose)) (Stub.text_reply Stub.prose))
    as [Hplan Hspots].
  - right. right. exists Stub.prose. split; reflexivity.
  - destruct (Hplan eq_refl) as (m & Hrun & _ & Hkind).
    destruct (Hspots eq_refl) as (m' & Hrun' & _ & Hkind').
    split; [exists m | exists m']; (split; [|assumption]).
    + rewrite Hrun. reflexivity.
    + rewrite Hrun'. reflexivity.
Defined.

(** C4, as the code has it: the call fulfils with [plan] exactly when the
    service replied with a non-empty text that [JSON.parse] turns into
    [plan]; the value is handed on as parsed, its crowd curve unchecked. *)
Theorem itinerary_returns_parsed_reply `{Runtime}
    (location : string) (w : World) (plan : JValue) :
  (exists w', generateDeepTravelItinerary location w = (Return plan, w')) <->
  (exists response c rest,
     generateContent (service w) (itinerary_request location) = inr response /\
     text response = Some (String c rest) /\
     JSON_parse (String c rest) = Some plan).
Proof.
  rewrite generateDeepTravelItinerary_run. unfold itinerary_outcome. split.
  - intros (w' & Hrun). injection Hrun as Hout _.
    destruct (generateContent (service w) (itinerary_request location))
      as [e|response]; [discriminate|].
    destruct (text response) as [[|c rest]|] eqn:Htext; [discriminate| |discriminate].
    destruct (JSON_parse (String c rest)) as [data|] eqn:Hparse; [|discriminate].
    exists response, c, rest. repeat split; congruence.
  - intros (response & c & rest & -> & -> & ->). eexists. reflexivity.
Qed.

(** C4 fails as stated: a run on a non-empty location succeeds with a plan
    whose crowd curve has a single entry, scored 250. *)
Lemma itinerary_short_curve_counterexample :
  "Kyoto, Japan" <> "" /\
  fst (@generateDeepTravelItinerary (Stub.runtime Stub.known) "Kyoto, Japan"
         (Stub.searching (Stub.text_only Stub.short_curve_text)))
  = Return Stub.short_curve_plan /\
  crowd_curve_conforms Stub.short_curve_plan = false /\
  (field "weather" Stub.short_curve_plan ≫= field "crowd_curve")
  = Some (JArr [JObj [("month", JStr "Jan"); ("score", JNum 250)]]).
Proof.
  split; [discriminate|]. split; [|split]; reflexivity.
Qed.

(** C2: when the reply is a JSON array, [searchHiddenSpots] fulfils with its
    first five entries at most: the result has [min n 5] entries, never more
    than five, and three when the array has three. *)
Theorem hidden_spots_at_most_five `{Runtime}
    (location : string) (w : World) (response : GenerateContentResponse)
    (t : string) (gems : list JValue) :
  generateContent (service w) (hidden_spots_request location) = inr response ->
  text response = Some t ->
  JSON_parse t = Some (JArr gems) ->
  searchHiddenSpots location w
  = (Return (JArr (take 5 gems)),
     logged [CallGenerateContent (hidden_spots_request location)] w) /\
  length (take 5 gems) = Nat.min (length gems) 5 /\
  length (take 5 gems) <= 5 /\
  (length gems = 3 -> take 5 gems = gems).
Proof.
  intros Hreply Htext Hparse.
  rewrite searchHiddenSpots_run, Hreply. unfold hidden_spots_outcome. rewrite Htext.
  destruct t as [|c rest]; [rewrite JSON_parse_empty in Hparse; discriminate|].
  rewrite Hparse. split; [reflexivity|].
  rewrite length_take. repeat split; try lia.
  intros Hthree. apply take_ge. lia.
Qed.

Lemma hidden_spots_at_most_five_witness :
  fst (@searchHiddenSpots (Stub.runtime Stub.known) "Kyoto, Japan"
         (Stub.searching (Stub.text_only Stub.three_gems_text)))
  = Return (JArr Stub.three_gems).
Proof.
  destruct (@hidden_spots_at_most_five (Stub.runtime Stub.known) "Kyoto, Japan"
              (Stub.searching (Stub.text_only Stub.three_gems_text))
              (Stub.text_reply Stub.three_gems_text) Stub.three_gems_text
              Stub.three_gems eq_refl eq_refl eq_refl)
    as (Hrun & _ & _ & Hsame).
  rewrite Hrun. cbn [fst]. rewrite (Hsame eq_refl). reflexivity.
Defined.

(** ** Text and images are independent *)

Lemma omap_all_none {A B} (f : A -> option B) (l : list A) :
  (forall x, x ∈ l -> f x = None) -> omap f l = [].
Proof.
  induction l as [|x l IH]; intros Hnone; [reflexivity|].
  cbn. rewrite (Hnone x) by apply list_elem_of_here.
  apply IH. intros y Hy. apply Hnone. apply list_elem_of_further, Hy.
Qed.

Lemma truthy_nonempty (s : string) : s <> "" -> JSString.truthy s = true.
Proof. destruct s; [congruence|reflexivity]. Qed.

Lemma first_inline_image_skips (before : list Part) (rest : list Part) :
  Forall (fun earlier => inlineData earlier = None) before ->
  first_inline_image (before ++ rest) = first_inline_image rest.
Proof.
  induction before as [|earlier before IH]; intros Hnone; [reflexivity|].
  inversion Hnone as [|? ? Hearlier Hrest]; subst.
  cbn [app first_inline_image]. rewrite Hearlier. apply IH, Hrest.
Qed.

Lemma first_inline_image_none (ps : list Part) :
  Forall (fun part => inlineData part = None) ps -> first_inline_image ps = None.
Proof.
  intros Hnone. rewrite <- (app_nil_r ps). rewrite first_inline_image_skips by exact Hnone.
  reflexivity.
Qed.

(** What the code extracts from a reply is the image the reply carries. *)
Lemma image_of_reply_preview (s : Service) (prompt : string) (image : option string) :
  image_of_reply (generateContent s (image_request prompt None)) image ->
  preview_of s prompt = image.
Proof.
  unfold preview_of. intros Himage.
  inversion Himage as [e He | response Hmissing Hreply
                       | response candidate others c before part after inline
                           Hcandidates Hcontent Hparts Hbefore Hinline Hreply]; subst.
  - reflexivity.
  - unfold response_parts.
    destruct (candidates response) as [[|candidate others]|] eqn:Hcandidates;
      [reflexivity| |reflexivity].
    cbn. destruct (content candidate) as [c|] eqn:Hcontent; [|reflexivity].
    cbn. destruct (parts c) as [ps|] eqn:Hparts; [|reflexivity].
    cbn. apply first_inline_image_none.
    exact (Hmissing candidate others c ps eq_refl Hcontent Hparts).
  - unfold response_parts. rewrite Hcandidates. cbn. rewrite Hcontent. cbn.
    rewrite Hparts. cbn. rewrite first_inline_image_skips by exact Hbefore.
    cbn [first_inline_image]. rewrite Hinline. reflexivity.
Qed.

(** Every reply carries an image or none. *)
Lemma image_of_reply_total (reply : JSError + GenerateContentResponse) :
  exists image, image_of_reply reply image.
Proof.
  destruct reply as [e|response]; [exists None; constructor|].
  destruct (candidates response) as [[|candidate others]|] eqn:Hcandidates;
    [exists None; apply image_missing; congruence| |exists None; apply image_missing; congruence].
  destruct (content candidate) as [c|] eqn:Hcontent;
    [|exists None; apply image_missing; congruence].
  destruct (parts c) as [ps|] eqn:Hparts;
    [|exists None; apply image_missing; congruence].
  assert (Forall (fun part => inlineData part = None) ps \/
          exists before part after inline,
            ps = (before ++ part :: after)%list /\
            Forall (fun earlier => inlineData earlier = None) before /\
            inlineData part = Some inline) as [Hnone|Hsome].
  { clear Hparts. induction ps as [|part ps IH]; [left; constructor|].
    destruct (inlineData part) as [inline|] eqn:Hinline.
    - right. exists [], part, ps, inline. repeat split; [constructor|exact Hinline].
    - destruct IH as [Hnone|(before & found & after & inline & -> & Hbefore & Hfound)].
      + left. constructor; assumption.
      + right. exists (part :: before), found, after, inline.
        repeat split; [constructor; assumption|exact Hfound]. }
  - exists None. apply image_missing. intros candidate' others' c' ps' Hc Hcontent' Hparts'.
    congruence.
  - destruct Hsome as (before & part & after & inline & -> & Hbefore & Hinline).
    eexists. exact (image_found response candidate others c before part after inline
                      Hcandidates Hcontent Hparts Hbefore Hinline).
Qed.

(** C5: [generateLocationPreviews] always fulfils, after its three requests,
    with exactly the images of the requests that produced one, in request
    order, whichever of the three requests reject or come back without an
    image; with none succeeding the list is empty.  The image of a request
    is the inline data of the first part that has any, in the first
    candidate of its reply, behind the PNG data-URI prefix.
    [handleDeepPlan] then still ends with the parsed plan in [travelData]
    and no error, whatever happened to the images. *)
Theorem previews_fail_independently `{Runtime} (place : string) (w : World) :
  (forall day sunset aerial,
     image_of_reply
       (generateContent (service w)
          {| gc_model := "gemini-2.5-flash-image";
             gc_contents :=
               ContentsParts
                 ["A hyper-realistic, 4k, wide-angle photograph of " +:+ place +:+
                  ", daytime, clear blue sky, iconic view."];
             gc_config := None |}) day ->
     image_of_reply
       (generateContent (service w)
          {| gc_model := "gemini-2.5-flash-image";
             gc_contents :=
               ContentsParts
                 ["A cinematic sunset photo of " +:+ place +:+
                  ", warm golden hour lighting, dramatic shadows, photorealistic."];
             gc_config := None |}) sunset ->
     image_of_reply
       (generateContent (service w)
          {| gc_model := "gemini-2.5-flash-image";
             gc_contents :=
               ContentsParts
                 ["An aerial drone shot of " +:+ place +:+
                  ", showing surroundings and landscape, high detail, photorealistic."];
             gc_config := None |}) aerial ->
     generateLocationPreviews place w
     = (Return (omap id [day; sunset; aerial]),
        logged
          [CallGenerateContent
             {| gc_model := "gemini-2.5-flash-image";
                gc_contents :=
                  ContentsParts
                    ["A hyper-realistic, 4k, wide-angle photograph of " +:+ place +:+
                     ", daytime, clear blue sky, iconic view."];
                gc_config := None |};
           CallGenerateContent
             {| gc_model := "gemini-2.5-flash-image";
                gc_contents :=
                  ContentsParts
                    ["A cinematic sunset photo of " +:+ place +:+
                     ", warm golden hour lighting, dramatic shadows, photorealistic."];
                gc_config := None |};
           CallGenerateContent
             {| gc_model := "gemini-2.5-flash-image";
                gc_contents :=
                  ContentsParts
                    ["An aerial drone shot of " +:+ place +:+
                     ", showing surroundings and landscape, high detail, photorealistic."];
                gc_config := None |}] w) /\
     (forall response c rest plan,
        location (agent w) = place ->
        place <> "" ->
        generateContent (service w) (itinerary_request place) = inr response ->
        text response = Some (String c rest) ->
        JSON_parse (String c rest) = Some plan ->
        exists w',
          handleDeepPlan w = (Return tt, w') /\
          travelData (agent w') = Some plan /\
          error_ (agent w') = None /\
          images (agent w') = omap id [day; sunset; aerial] /\
          imagesLoading (agent w') = false /\
          loading (agent w') = false)) /\
  (forall reply, exists image, image_of_reply reply image) /\
  (exists pictures,
     fst (generateLocationPreviews place w) = Return pictures /\ length pictures <= 3) /\
  generateLocationPreviews place w
  = (Return (omap (preview_of (service w)) (preview_prompts place)),
     logged (map (fun prompt => CallGenerateContent (image_request prompt None))
               (preview_prompts place)) w) /\
  length (preview_prompts place) = 3 /\
  ((forall prompt,
      prompt ∈ preview_prompts place ->
      image_of_reply (generateContent (service w) (image_request prompt None)) None) ->
   fst (generateLocationPreviews place w) = Return []) /\
  ((forall prompt, prompt ∈ preview_prompts place -> preview_of (service w) prompt = None) ->
   fst (generateLocationPreviews place w) = Return []) /\
  (forall response c rest plan,
     location (agent w) = place ->
     place <> "" ->
     generateContent (service w) (itinerary_request place) = inr response ->
     text response = Some (String c rest) ->
     JSON_parse (String c rest) = Some plan ->
     exists w',
       handleDeepPlan w = (Return tt, w') /\
       travelData (agent w') = Some plan /\
       error_ (agent w') = None /\
       images (agent w') = omap (preview_of (service w)) (preview_prompts place) /\
       imagesLoading (agent w') = false /\
       loading (agent w') = false).
Proof.
  assert (forall response c rest plan,
            location (agent w) = place ->
            place <> "" ->
            generateContent (service w) (itinerary_request place) = inr response ->
            text response = Some (String c rest) ->
            JSON_parse (String c rest) = Some plan ->
            exists w',
              handleDeepPlan w = (Return tt, w') /\
              travelData (agent w') = Some plan /\
              error_ (agent w') = None /\
              images (agent w') = omap (preview_of (service w)) (preview_prompts place) /\
              imagesLoading (agent w') = false /\
              loading (agent w') = false) as Hplan.
  { intros response c rest plan Hplace Hfilled Hreply Htext Hparse.
    unfold handleDeepPlan, bind at 1, get_agent. rewrite Hplace.
    rewrite (truthy_nonempty _ Hfilled). io_run.
    rewrite generateLocationPreviews_run. cbn.
    rewrite generateDeepTravelItinerary_run. cbn.
    rewrite Hreply. unfold itinerary_outcome. rewrite Htext, Hparse. cbn.
    eexists. split; [reflexivity|]. cbn. repeat split. }
  split; [|split; [|split; [|split; [|split; [|split; [|split]]]]]].
  - intros day sunset aerial Hday Hsunset Haerial.
    assert (omap (preview_of (service w)) (preview_prompts place)
            = omap id [day; sunset; aerial]) as Hpictures.
    { unfold preview_prompts. cbn [omap list_omap].
      rewrite (image_of_reply_preview _ _ _ Hday), (image_of_reply_preview _ _ _ Hsunset),
        (image_of_reply_preview _ _ _ Haerial). reflexivity. }
    split.
    + rewrite generateLocationPreviews_run, Hpictures. reflexivity.
    + intros response c rest plan Hplace Hfilled Hreply Htext Hparse.
      rewrite <- Hpictures. exact (Hplan response c rest plan Hplace Hfilled Hreply Htext Hparse).
  - apply image_of_reply_total.
  - rewrite generateLocationPreviews_run. eexists. split; [reflexivity|].
    unfold preview_prompts. cbn [omap list_omap].
    repeat match goal with |- context [preview_of ?s ?p] => destruct (preview_of s p) end;
      cbn; lia.
  - apply generateLocationPreviews_run.
  - reflexivity.
  - intros Hnone. rewrite generateLocationPreviews_run. cbn [fst].
    rewrite omap_all_none; [reflexivity|].
    intros prompt Hprompt. apply image_of_reply_preview, Hnone, Hprompt.
  - intros Hnone. rewrite generateLocationPreviews_run. cbn [fst].
    rewrite omap_all_none by exact Hnone. reflexivity.
  - exact Hplan.
Qed.

Lemma previews_fail_independently_witness :
  generateLocationPreviews "Kyoto, Japan" Album.world
  = (Return ["data:image/png;base64,DAY"; "data:image/png;base64,AIR"],
     logged (map (fun prompt => CallGenerateContent (image_request prompt None))
               (preview_prompts "Kyoto, Japan")) Album.world) /\
  (exists w',
     @handleDeepPlan (Stub.runtime Stub.known) Album.world = (Return tt, w') /\
     travelData (agent w') = Some Stub.short_curve_plan /\
     error_ (agent w') = None /\
     images (agent w') = ["data:image/png;base64,DAY"; "data:image/png;base64,AIR"]) /\
  fst (generateLocationPreviews "Kyoto, Japan"
         (Stub.searching (Stub.text_only Stub.short_curve_text))) = Return [].
Proof.
  assert (forall d, image_of_reply (inr (Album.picture d))
                      (Some ("data:image/png;base64," +:+ d))) as Hpicture.
  { intros d.
    exact (image_found (Album.picture d) _ [] _
             [{| part_text := Some "Here it is."; inlineData := None |}]
             {| part_text := None; inlineData := Some {| data := Some d |} |} []
             {| data := Some d |} eq_refl eq_refl eq_refl
             ltac:(repeat constructor) eq_refl). }
  destruct (@previews_fail_independently (Stub.runtime Stub.known) "Kyoto, Japan" Album.world)
    as (Hmixed & _).
  destruct (Hmixed (Some "data:image/png;base64,DAY") None (Some "data:image/png;base64,AIR")
              (Hpicture "DAY") (image_rejected Stub.unavailable) (Hpicture "AIR"))
    as (Hrun & Hplan).
  destruct (@previews_fail_independently (Stub.runtime Stub.known) "Kyoto, Japan"
              (Stub.searching (Stub.text_only Stub.short_curve_text)))
    as (_ & _ & _ & _ & _ & Hempty & _).
  split; [exact Hrun|]. split.
  - destruct (Hplan (Stub.text_reply Stub.short_curve_text) _ _ Stub.short_curve_plan
                eq_refl ltac:(discriminate) eq_refl eq_refl eq_refl)
      as (w' & Hhandler & Hdata & Herror & Himages & _).
    exists w'. repeat split; [exact Hhandler | exact Hdata | exact Herror | exact Himages].
  - apply Hempty. intros prompt _. apply image_rejected.
Defined.

(** ** The poll loop *)

Lemma world_eq (s : Service) (p p' : list (JSError + Operation)) (n n' : Z)
    (l l' : list Event) (a : TravelAgentState) (v : VeoGeneratorState) :
  p = p' -> n = n' -> l = l' ->
  {| service := s; polls := p; now := n; log := l; agent := a; veo := v |}
  = {| service := s; polls := p'; now := n'; log := l'; agent := a; veo := v |}.
Proof. intros -> -> ->. reflexivity. Qed.

Lemma after_polls_after_polls (a b : list Operation)
    (rest rest' : list (JSError + Operation)) (w : World) :
  after_polls b rest' (after_polls a rest w) = after_polls (a ++ b) rest' w.
Proof.
  unfold after_polls, poll_events. cbn. apply world_eq; [reflexivity| |].
  - rewrite length_app. lia.
  - rewrite flat_map_app, app_assoc. reflexivity.
Qed.

(** One turn of the loop on a job that is not done: wait, query, and go on
    with the reply. *)
Lemma poll_step (reply : JSError + Operation) (rest : list (JSError + Operation))
    (operation : Operation) (w : World) :
  done operation = false ->
  polls w = reply :: rest ->
  poll (reply :: rest) operation w
  = match reply with
    | inl e => (Throw e, after_polls [operation] rest w)
    | inr next => poll rest next (after_polls [operation] rest w)
    end.
Proof.
  intros Hpending Hscript. cbn [poll]. rewrite Hpending. io_run. rewrite Hscript.
  unfold after_polls, poll_events. cbn. rewrite <- app_assoc. cbn.
  destruct reply; reflexivity.
Qed.

(** While the replies say "not done" the loop keeps waiting and asking, each
    query carrying the operation the previous exchange returned; it stops at
    the first reply that is done. *)
Lemma poll_until_done (pending : list Operation) (final : Operation)
    (rest : list (JSError + Operation)) (submitted : Operation) (w : World) :
  done submitted = false ->
  Forall (fun operation => done operation = false) pending ->
  done final = true ->
  polls w = (map inr pending ++ inr final :: rest)%list ->
  poll (map inr pending ++ inr final :: rest) submitted w
  = (Return final, after_polls (submitted :: pending) rest w).
Proof.
  revert submitted w.
  induction pending as [|next pending IH]; intros submitted w Hsub Hpend Hfinal Hscript;
    cbn [map app] in *.
  - rewrite poll_step by assumption. destruct rest; cbn [poll]; rewrite Hfinal; reflexivity.
  - inversion Hpend as [|? ? Hnext Hpend']; subst.
    rewrite poll_step by assumption.
    rewrite IH by (assumption || reflexivity).
    rewrite after_polls_after_polls. reflexivity.
Qed.

Lemma status_queries_poll_events (queried : list Operation) :
  status_queries (poll_events queried) = queried.
Proof.
  induction queried as [|operation queried IH]; [reflexivity|].
  unfold status_queries, poll_events in *. cbn. rewrite IH. reflexivity.
Qed.

(** C1: a submitted job that is not done, then replies "not done" for each of
    [pending] and a successful, done reply: [generateDroneVideo] waits five
    seconds before every status query, sends one query per reply (one for the
    submitted job and one for each pending reply; three when two replies are
    pending), each carrying the operation the exchange before returned, and
    then fetches and fulfils.  [pending] is any list: no number of retries
    stops the loop. *)
Theorem polling_waits_then_requeries `{Runtime}
    (imageBase64 prompt : string) (ratio : AspectRatio) (w : World)
    (submitted final : Operation) (pending : list Operation)
    (rest : list (JSError + Operation))
    (link : string) (reply : FetchResponse) (bytes : string) :
  generateVideos (service w) (videos_request (cleanBase64 imageBase64) prompt ratio)
  = inr submitted ->
  done submitted = false ->
  Forall (fun operation => done operation = false) pending ->
  polls w = (map inr pending ++ inr final :: rest)%list ->
  done final = true ->
  error final = None ->
  downloadLink final = Some link ->
  link <> "" ->
  fetch (service w) (link +:+ "&key=" +:+ JSString.template (API_KEY (service w)))
  = inr reply ->
  ok reply = true ->
  blob reply = inr bytes ->
  exists w',
    generateDroneVideo imageBase64 prompt ratio w
    = (Return (URL_createObjectURL bytes), w') /\
    log w' =
      (log w
       ++ CallGenerateVideos (videos_request (cleanBase64 imageBase64) prompt ratio)
       :: poll_events (submitted :: pending)
       ++ [CallFetch (link +:+ "&key=" +:+ JSString.template (API_KEY (service w)))])%list /\
    status_queries (poll_events (submitted :: pending)) = submitted :: pending /\
    length (status_queries (poll_events (submitted :: pending))) = S (length pending) /\
    (Forall (fun operation => op_name operation = op_name submitted) pending ->
     Forall (fun operation => op_name operation = op_name submitted)
       (status_queries (poll_events (submitted :: pending)))) /\
    polls w' = rest /\
    now w' = (now w + 5000 * Z.of_nat (S (length pending)))%Z.
Proof.
  intros Hsubmit Hsub Hpending Hscript Hfinal Hok Hlink Hfilled Hfetch Hreply Hblob.
  unfold generateDroneVideo. io_run. rewrite Hsubmit. cbn.
  unfold while_not_done. cbn [polls logged]. rewrite Hscript.
  rewrite poll_until_done by assumption. cbn.
  rewrite Hok, Hlink. destruct link as [|c tail]; [congruence|]. cbn.
  rewrite Hfetch. cbn. rewrite Hreply, Hblob. cbn.
  eexists. split; [reflexivity|]. cbn.
  rewrite status_queries_poll_events.
  split; [|split; [reflexivity|split; [reflexivity|split; [|split; reflexivity]]]].
  - rewrite <- !app_assoc. reflexivity.
  - intros Hnames. constructor; [reflexivity|exact Hnames].
Qed.

Lemma polling_waits_then_requeries_witness :
  exists w',
    @generateDroneVideo (Stub.runtime []) "AAAA" "fly" Ratio16x9
      (Stub.filming [inr Stub.pending_job; inr Stub.pending_job; inr Stub.finished_job])
    = (Return "blob:mp4", w') /\
    log w' =
      [CallGenerateVideos (videos_request "AAAA" "fly" Ratio16x9);
       Timer 5000; CallGetVideosOperation Stub.pending_job;
       Timer 5000; CallGetVideosOperation Stub.pending_job;
       Timer 5000; CallGetVideosOperation Stub.pending_job;
       CallFetch "https://videos.example/clip?alt=media&key=k"] /\
    now w' = (1700000000000 + 15000)%Z.
Proof.
  destruct (@polling_waits_then_requeries (Stub.runtime []) "AAAA" "fly" Ratio16x9
              (Stub.filming [inr Stub.pending_job; inr Stub.pending_job; inr Stub.finished_job])
              Stub.pending_job Stub.finished_job [Stub.pending_job; Stub.pending_job] []
              "https://videos.example/clip?alt=media" {| ok := true; blob := inr "mp4" |} "mp4")
    as (w' & Hrun & Hlog & _ & _ & _ & _ & Hnow);
    try reflexivity; try discriminate.
  - repeat constructor.
  - exists w'. split; [exact Hrun|]. split; [rewrite Hlog|rewrite Hnow]; reflexivity.
Defined.

(** ** Requests only ever add to the log *)

Lemma grows_here {A} (w : World) (r : Outcome A) :
  forall r' w', (r, w) = (r', w') -> exists events, log w' = (log w ++ events)%list.
Proof. intros r' w' [= _ <-]. exists []. rewrite app_nil_r. reflexivity. Qed.

Lemma grows_ret {A} (a : A) : grows (ret a).
Proof. intros w. apply grows_here. Qed.

Lemma grows_throw {A} (e : JSError) : grows (@throw A e).
Proof. intros w. apply grows_here. Qed.

Lemma grows_unsettled {A} : grows (@unsettled A).
Proof. intros w. apply grows_here. Qed.

Lemma grows_settle {A} (r : JSError + A) : grows (settle r).
Proof. destruct r; [apply grows_throw|apply grows_ret]. Qed.

Lemma grows_env_API_KEY : grows env_API_KEY.
Proof. intros w. apply grows_here. Qed.

Lemma grows_emit (e : Event) : grows (emit e).
Proof. intros w r w' [= _ <-]. exists [e]. reflexivity. Qed.

Lemma grows_setTimeout (ms : Z) : grows (setTimeout ms).
Proof. intros w r w' [= _ <-]. exists [Timer ms]. reflexivity. Qed.

Lemma grows_bind {A B} (m : IO A) (k : A -> IO B) :
  grows m -> (forall a, grows (k a)) -> grows (bind m k).
Proof.
  intros Hm Hk w r w'. unfold bind.
  destruct (m w) as [[a|e|] w1] eqn:Hrun; destruct (Hm _ _ _ Hrun) as (first & Hfirst).
  - intros Hnext. destruct (Hk _ _ _ _ Hnext) as (second & Hsecond).
    exists (first ++ second)%list. rewrite Hsecond, Hfirst, app_assoc. reflexivity.
  - intros [= _ <-]. eauto.
  - intros [= _ <-]. eauto.
Qed.

Lemma grows_try_catch {A} (m : IO A) (h : JSError -> IO A) :
  grows m -> (forall e, grows (h e)) -> grows (try_catch m h).
Proof.
  intros Hm Hh w r w'. unfold try_catch.
  destruct (m w) as [[a|e|] w1] eqn:Hrun; destruct (Hm _ _ _ Hrun) as (first & Hfirst).
  - intros [= _ <-]. eauto.
  - intros Hnext. destruct (Hh _ _ _ _ Hnext) as (second & Hsecond).
    exists (first ++ second)%list. rewrite Hsecond, Hfirst, app_assoc. reflexivity.
  - intros [= _ <-]. eauto.
Qed.

Lemma grows_service_reply {A} (reply : World -> JSError + A) :
  grows (fun w => settle (reply w) w).
Proof. intros w r w' Hrun. apply (grows_settle (reply w) w r w' Hrun). Qed.

Lemma grows_window_fetch (url : string) : grows (window_fetch url).
Proof.
  apply grows_bind; [apply grows_emit|]. intros _.
  apply (grows_service_reply (fun w => fetch (service w) url)).
Qed.

Lemma grows_operations_getVideosOperation (operation : Operation) :
  grows (operations_getVideosOperation operation).
Proof.
  apply grows_bind; [apply grows_emit|]. intros _ w r w'.
  destruct (polls w) as [|reply rest]; [apply grows_here|].
  intros Hrun. apply (grows_settle reply _ _ _ Hrun).
Qed.

Create HintDb grows.
#[local] Hint Resolve grows_ret grows_throw grows_unsettled grows_settle grows_env_API_KEY
  grows_emit grows_setTimeout grows_window_fetch grows_operations_getVideosOperation : grows.

Lemma grows_poll (script : list (JSError + Operation)) (operation : Operation) :
  grows (poll script operation).
Proof.
  revert operation. induction script as [|reply rest IH]; intros operation; cbn [poll];
    (destruct (done operation); [auto with grows|]);
    apply grows_bind; auto with grows; intros _; apply grows_bind; auto with grows.
Qed.

Lemma grows_while_not_done (operation : Operation) : grows (while_not_done operation).
Proof. intros w r w' Hrun. apply (grows_poll (polls w) operation w r w' Hrun). Qed.

(** ** The reference image handed to the video job *)

Lemma strip_prefix_append (a b s : string) :
  JSString.strip_prefix (a +:+ b) s
  = JSString.strip_prefix a s ≫= JSString.strip_prefix b.
Proof.
  revert s. induction a as [|c a IH]; intros s; [reflexivity|].
  change (String c a +:+ b) with (String c (a +:+ b)).
  destruct s as [|c' s]; cbn; [reflexivity|].
  destruct (Ascii.eqb c c'); [apply IH|reflexivity].
Qed.

Lemma not_starting_with (p s : string) :
  starts_with p s = false -> JSString.strip_prefix p s = None.
Proof. unfold starts_with. destruct (JSString.strip_prefix p s); [discriminate|reflexivity]. Qed.

Lemma cleanBase64_other (s : string) :
  starts_with "data:image/png;base64," s = false ->
  starts_with "data:image/jpeg;base64," s = false ->
  starts_with "data:image/jpg;base64," s = false ->
  cleanBase64 s = s.
Proof.
  intros Hpng%not_starting_with Hjpeg%not_starting_with Hjpg%not_starting_with.
  change "data:image/png;base64," with ("data:image/" +:+ "png;base64,") in Hpng.
  change "data:image/jpeg;base64," with ("data:image/" +:+ "jpeg;base64,") in Hjpeg.
  change "data:image/jpg;base64," with ("data:image/" +:+ "jpg;base64,") in Hjpg.
  rewrite strip_prefix_append in Hpng, Hjpeg, Hjpg.
  unfold cleanBase64, data_uri_match.
  destruct (JSString.strip_prefix "data:image/" s) as [after|]; [|reflexivity].
  cbn [mbind option_bind match_alternatives] in Hpng, Hjpeg, Hjpg |- *.
  change ("png" +:+ ";base64,") with "png;base64,".
  change ("jpeg" +:+ ";base64,") with "jpeg;base64,".
  change ("jpg" +:+ ";base64,") with "jpg;base64,".
  rewrite Hpng, Hjpeg, Hjpg. reflexivity.
Qed.

Lemma first_inline_image_png (ps : list Part) (image : string) :
  first_inline_image ps = Some image ->
  exists payload, image = "data:image/png;base64," +:+ payload.
Proof.
  induction ps as [|part ps IH]; cbn; [discriminate|].
  destruct (inlineData part) as [inline|]; [|exact IH].
  intros [= <-]. eauto.
Qed.

Lemma generateReferenceImage_png `{Runtime}
    (place : string) (ratio : AspectRatio) (w w' : World) (image : string) :
  generateReferenceImage place ratio w = (Return image, w') ->
  exists payload, image = "data:image/png;base64," +:+ payload.
Proof.
  unfold generateReferenceImage. io_run.
  destruct (generateContent (service w) (reference_request place ratio)) as [e|reply];
    cbn; [discriminate|].
  destruct (first_inline_image (response_parts reply)) as [found|] eqn:Hfound;
    cbn; [|discriminate].
  intros [= <- _]. exact (first_inline_image_png _ _ Hfound).
Qed.

(** After a request that is caught by [h], the log begins with that request. *)
Lemma request_comes_first {A B} (e : Event) (reply : World -> JSError + A)
    (k : A -> IO B) (h : JSError -> IO B) :
  (forall a, grows (k a)) -> (forall err, grows (h err)) ->
  forall w r w',
    try_catch (bind (bind (emit e) (fun _ w => settle (reply w) w)) k) h w = (r, w') ->
    exists later, log w' = (log w ++ e :: later)%list.
Proof.
  intros Hk Hh w r w' Hrun.
  assert (grows (try_catch (bind (fun w => settle (reply w) w) k) h)) as Hrest.
  { apply grows_try_catch; [|exact Hh]. apply grows_bind; [|exact Hk].
    apply grows_service_reply. }
  destruct (Hrest (logged [e] w) r w') as (later & Hlater).
  - rewrite <- Hrun. unfold try_catch, bind, emit. reflexivity.
  - exists later. rewrite Hlater. cbn. rewrite <- app_assoc. reflexivity.
Qed.

Lemma generateDroneVideo_submits `{Runtime}
    (imageBase64 prompt : string) (ratio : AspectRatio) (w : World)
    (r : Outcome string) (w' : World) :
  generateDroneVideo imageBase64 prompt ratio w = (r, w') ->
  exists later,
    log w' =
      (log w ++ CallGenerateVideos (videos_request (cleanBase64 imageBase64) prompt ratio)
       :: later)%list.
Proof.
  unfold generateDroneVideo, models_generateVideos.
  apply (request_comes_first _
           (fun w => generateVideos (service w)
                       (videos_request (cleanBase64 imageBase64) prompt ratio))).
  - intros submitted. apply grows_bind; [apply grows_while_not_done|].
    intros final. destruct (error final); [auto with grows|].
    destruct (downloadLink final) as [[|c rest]|]; [auto with grows| |auto with grows].
    apply grows_bind; [auto with grows|]. intros key.
    apply grows_bind; [auto with grows|]. intros reply.
    destruct (ok reply); [|auto with grows].
    apply grows_bind; auto with grows.
  - auto with grows.
Qed.

(** C7, as the code has it: the image bytes of the submitted job are the
    input with a leading [data:image/png;base64,], [data:image/jpeg;base64,]
    or [data:image/jpg;base64,] removed; an input that begins with none of
    the three is submitted as it is.  The image [generateReferenceImage]
    returns always has the first of these prefixes. *)
Theorem image_prefix_stripped `{Runtime} :
  (forall payload, cleanBase64 ("data:image/png;base64," +:+ payload) = payload) /\
  (forall payload, cleanBase64 ("data:image/jpeg;base64," +:+ payload) = payload) /\
  (forall payload, cleanBase64 ("data:image/jpg;base64," +:+ payload) = payload) /\
  (forall s,
     starts_with "data:image/png;base64," s = false ->
     starts_with "data:image/jpeg;base64," s = false ->
     starts_with "data:image/jpg;base64," s = false ->
     cleanBase64 s = s) /\
  (forall imageBase64 prompt ratio w r w',
     generateDroneVideo imageBase64 prompt ratio w = (r, w') ->
     exists later,
       log w' =
         (log w ++ CallGenerateVideos (videos_request (cleanBase64 imageBase64) prompt ratio)
          :: later)%list) /\
  (forall place ratio w w' image,
     generateReferenceImage place ratio w = (Return image, w') ->
     exists payload,
       image = "data:image/png;base64," +:+ payload /\ cleanBase64 image = payload).
Proof.
  split; [reflexivity|]. split; [reflexivity|]. split; [reflexivity|].
  split; [exact cleanBase64_other|]. split; [exact generateDroneVideo_submits|].
  intros place ratio w w' image Hrun.
  destruct (generateReferenceImage_png _ _ _ _ _ Hrun) as (payload & ->).
  exists payload. split; reflexivity.
Qed.

Lemma image_prefix_stripped_witness :
  exists later,
    log (snd (@generateDroneVideo (Stub.runtime []) "data:image/png;base64,AAAA" "fly"
                Ratio16x9 (Stub.filming [inr Stub.finished_job])))
    = CallGenerateVideos (videos_request "AAAA" "fly" Ratio16x9) :: later.
Proof.
  destruct (@image_prefix_stripped (Stub.runtime [])) as (_ & _ & _ & _ & Hsubmits & _).
  exact (Hsubmits "data:image/png;base64,AAAA" "fly" Ratio16x9
           (Stub.filming [inr Stub.finished_job]) _ _ (surjective_pairing _)).
Defined.

(** C7 fails as stated: a reference image with the prefix
    [data:image/webp;base64,] is submitted with its prefix. *)
Lemma webp_prefix_counterexample :
  head (log (snd (@generateDroneVideo (Stub.runtime []) "data:image/webp;base64,AAAA" "fly"
                    Ratio16x9 (Stub.filming [inr Stub.finished_job]))))
  = Some (CallGenerateVideos
            (videos_request "data:image/webp;base64,AAAA" "fly" Ratio16x9)) /\
  gv_imageBytes (videos_request "data:image/webp;base64,AAAA" "fly" Ratio16x9)
  = "data:image/webp;base64," +:+ "AAAA" /\
  gv_imageBytes (videos_request "data:image/webp;base64,AAAA" "fly" Ratio16x9) <> "AAAA".
Proof. split; [reflexivity|]. split; [reflexivity|discriminate]. Qed.

(** ** A job that ends in error *)

Lemma formatError_unclassified (m : string) :
  m <> "" -> unclassified m = true ->
  formatError (Error m) = "AI Request Failed: " +:+ m.
Proof.
  intros Hfilled. destruct m as [|c rest]; [congruence|].
  unfold unclassified, known_substrings, formatError. cbn [forallb err_message Error
    JSString.or_else JSString.truthy].
  repeat match goal with
         | |- context [JSString.includes ?s ?k] => destruct (JSString.includes s k)
         end; cbn; congruence.
Qed.

Lemma formatError_classified (m : string) :
  m <> "" -> unclassified m = false ->
  formatError (Error m) ∈ classified_messages.
Proof.
  intros Hfilled. destruct m as [|c rest]; [congruence|].
  unfold unclassified, known_substrings, formatError, classified_messages.
  cbn [forallb err_message Error JSString.or_else JSString.truthy].
  repeat match goal with
         | |- context [JSString.includes ?s ?k] => destruct (JSString.includes s k)
         end; cbn; intros Hknown; try discriminate;
    repeat first [apply list_elem_of_here | apply list_elem_of_further].
Qed.

Lemma reported_nonempty (reported : option string) :
  JSString.opt_or_else reported "Video generation failed" <> "".
Proof. destruct reported as [[|c rest]|]; discriminate. Qed.

(** C3, as the code has it: when the job ends in error, [generateDroneVideo]
    rejects with [formatError] of the job's text ("Video generation failed"
    when the job gives none).  The job's text follows the prefix
    "AI Request Failed: " verbatim when it contains none of the texts
    [formatError] looks for; otherwise the fixed message of that kind
    replaces it. *)
Theorem job_error_is_normalised `{Runtime}
    (imageBase64 prompt : string) (ratio : AspectRatio) (w w' : World)
    (submitted final : Operation) (failure : OperationError) :
  generateVideos (service w) (videos_request (cleanBase64 imageBase64) prompt ratio)
  = inr submitted ->
  while_not_done submitted
    (logged [CallGenerateVideos (videos_request (cleanBase64 imageBase64) prompt ratio)] w)
  = (Return final, w') ->
  error final = Some failure ->
  generateDroneVideo imageBase64 prompt ratio w
  = (Throw (Error (formatError
                     (Error (JSString.opt_or_else (error_message failure)
                               "Video generation failed")))), w') /\
  (forall m, error_message failure = Some m -> m <> "" -> unclassified m = true ->
     generateDroneVideo imageBase64 prompt ratio w
     = (Throw (Error ("AI Request Failed: " +:+ m)), w')) /\
  (forall m, error_message failure = Some m -> m <> "" -> unclassified m = false ->
     exists kind,
       generateDroneVideo imageBase64 prompt ratio w = (Throw (Error kind), w') /\
       kind ∈ classified_messages) /\
  (error_message failure = None \/ error_message failure = Some "" ->
     generateDroneVideo imageBase64 prompt ratio w
     = (Throw (Error "AI Request Failed: Video generation failed"), w')).
Proof.
  intros Hsubmit Hpoll Hfailed.
  assert (generateDroneVideo imageBase64 prompt ratio w
          = (Throw (Error (formatError
                             (Error (JSString.opt_or_else (error_message failure)
                                       "Video generation failed")))), w')) as Hrun.
  { unfold generateDroneVideo. io_run. rewrite Hsubmit. cbn.
    rewrite Hpoll, Hfailed. reflexivity. }
  split; [exact Hrun|]. rewrite Hrun. split; [|split].
  - intros m -> Hfilled Hplain. destruct m; [congruence|]. cbn [JSString.opt_or_else
      JSString.or_else JSString.truthy].
    rewrite formatError_unclassified by assumption. reflexivity.
  - intros m -> Hfilled Hknown. destruct m; [congruence|]. eexists. split; [reflexivity|].
    apply formatError_classified; assumption.
  - intros [-> | ->]; reflexivity.
Qed.

Lemma job_error_is_normalised_witness :
  fst (@generateDroneVideo (Stub.runtime []) "AAAA" "fly" Ratio16x9
         (Stub.filming [inr (Stub.failed_job "render farm on fire")]))
  = Throw (Error "AI Request Failed: render farm on fire").
Proof.
  destruct (@job_error_is_normalised (Stub.runtime []) "AAAA" "fly" Ratio16x9
              (Stub.filming [inr (Stub.failed_job "render farm on fire")])
              _ Stub.pending_job (Stub.failed_job "render farm on fire")
              {| error_message := Some "render farm on fire" |}
              eq_refl (surjective_pairing _) eq_refl)
    as (_ & Hplain & _).
  rewrite (Hplain "render farm on fire" eq_refl ltac:(discriminate) eq_refl).
  reflexivity.
Defined.

(** C3 fails as stated: the message that reaches the caller is not the job's
    text; it is prefixed, or replaced when a known text occurs in it. *)
Lemma job_error_text_counterexample :
  fst (@generateDroneVideo (Stub.runtime []) "AAAA" "fly" Ratio16x9
         (Stub.filming [inr (Stub.failed_job "quota exhausted")]))
  = Throw (Error "AI Request Failed: quota exhausted") /\
  "AI Request Failed: quota exhausted" <> "quota exhausted" /\
  fst (@generateDroneVideo (Stub.runtime []) "AAAA" "fly" Ratio16x9
         (Stub.filming [inr (Stub.failed_job "worker 503 out of memory")]))
  = Throw (Error "Service overloaded or unavailable. Please try again later.").
Proof. split; [reflexivity|]. split; [discriminate|reflexivity]. Qed.

(** * Further properties of the service functions *)

(** ** What a rejection carries *)

Lemma formatError_shape (cause : JSError) :
  formatError cause ∈ classified_messages \/
  exists msg, formatError cause = "AI Request Failed: " +:+ msg.
Proof.
  unfold formatError, classified_messages.
  repeat match goal with
         | |- context [JSString.includes ?s ?k] => destruct (JSString.includes s k)
         end; cbn [orb];
    first [ right; eexists; reflexivity
          | left; repeat first [apply list_elem_of_here | apply list_elem_of_further] ].
Qed.

Lemma formatError_nonempty (cause : JSError) : formatError cause <> "".
Proof.
  destruct (formatError_shape cause) as [Hkind | (msg & ->)]; [|discriminate].
  unfold classified_messages in Hkind.
  repeat (apply elem_of_cons in Hkind as [-> | Hkind]; [discriminate|]).
  inversion Hkind.
Qed.

Lemma try_catch_formats {A} (m : IO A) (w w' : World) (e : JSError) :
  try_catch m (fun cause => throw (Error (formatError cause))) w = (Throw e, w') ->
  exists cause, e = Error (formatError cause).
Proof.
  unfold try_catch, throw. destruct (m w) as [[a|cause|] w1]; intros [= <- _]. eauto.
Qed.

(** X1: whatever makes one of the four throwing service functions reject, the
    error that leaves it was built by [formatError]: its message is never
    empty, and it is one of the four fixed messages or starts with
    "AI Request Failed: ". *)
Theorem service_rejections_are_formatted `{Runtime} (w w' : World) (e : JSError) :
  (exists place, generateDeepTravelItinerary place w = (Throw e, w')) \/
  (exists place, searchHiddenSpots place w = (Throw e, w')) \/
  (exists place ratio, generateReferenceImage place ratio w = (Throw e, w')) \/
  (exists image prompt ratio, generateDroneVideo image prompt ratio w = (Throw e, w')) ->
  err_name e = "Error" /\
  err_message e <> "" /\
  (err_message e ∈ classified_messages \/
   starts_with "AI Request Failed: " (err_message e) = true).
Proof.
  intros Hrejected.
  assert (exists cause, e = Error (formatError cause)) as (cause & ->).
  { destruct Hrejected as [(place & Hrun) | [(place & Hrun) | [(place & ratio & Hrun)
        | (image & prompt & ratio & Hrun)]]];
      exact (try_catch_formats _ _ _ _ Hrun). }
  split; [reflexivity|]. split; [apply formatError_nonempty|].
  destruct (formatError_shape cause) as [Hkind | (msg & Hmsg)]; [left; exact Hkind|].
  right. cbn [err_message Error]. rewrite Hmsg. reflexivity.
Qed.

Lemma service_rejections_are_formatted_witness :
  err_message Stub.unavailable = "503 Service Unavailable" /\
  exists e,
    fst (@generateDroneVideo (Stub.runtime []) "AAAA" "fly" Ratio16x9 Stub.blank_world)
    = Throw e /\
    err_message e <> "".
Proof.
  split; [reflexivity|].
  exists (Error "Service overloaded or unavailable. Please try again later.").
  split; [reflexivity|].
  apply (@service_rejections_are_formatted (Stub.runtime []) Stub.blank_world
           (snd (@generateDroneVideo (Stub.runtime []) "AAAA" "fly" Ratio16x9
                   Stub.blank_world))).
  right. right. right. exists "AAAA", "fly", Ratio16x9. reflexivity.
Defined.

(** ** Replies that parse but are no array *)

Lemma slice0_length (n : nat) (s : string) :
  String.length (JSString.slice0 n s) = Nat.min n (String.length s).
Proof.
  revert s. induction n as [|n IH]; intros [|c rest]; cbn; try reflexivity.
  rewrite IH. reflexivity.
Qed.

(** X2: a reply that parses to an object, a number, a boolean or [null] makes
    [searchHiddenSpots] reject exactly as an unparseable text does; a reply
    that parses to a string is not rejected: the call fulfils with the first
    five characters of that string. *)
Theorem hidden_spots_reply_without_array `{Runtime}
    (place : string) (w : World) (reply : GenerateContentResponse)
    (t : string) (parsed : JValue) :
  generateContent (service w) (hidden_spots_request place) = inr reply ->
  text reply = Some t ->
  JSON_parse t = Some parsed ->
  ((forall items, parsed <> JArr items) -> (forall s, parsed <> JStr s) ->
   fst (searchHiddenSpots place w)
   = Throw (Error "AI Request Failed: Failed to parse hidden spots data.")) /\
  (forall s, parsed = JStr s ->
   fst (searchHiddenSpots place w) = Return (JStr (JSString.slice0 5 s)) /\
   String.length (JSString.slice0 5 s) = Nat.min 5 (String.length s)).
Proof.
  intros Hreply Htext Hparse.
  rewrite searchHiddenSpots_run, Hreply. unfold hidden_spots_outcome. rewrite Htext.
  destruct t as [|c rest]; [rewrite JSON_parse_empty in Hparse; discriminate|].
  rewrite Hparse. cbn [fst]. split.
  - intros Harray Hstring. destruct parsed; try reflexivity.
    + destruct (Hstring s eq_refl).
    + destruct (Harray items eq_refl).
  - intros s ->. split; [reflexivity|apply slice0_length].
Qed.

Lemma hidden_spots_reply_without_array_witness :
  fst (@searchHiddenSpots (Stub.runtime Stub.known) "Kyoto, Japan"
         (Stub.searching (Stub.text_only Stub.short_curve_text)))
  = Throw (Error "AI Request Failed: Failed to parse hidden spots data.").
Proof.
  destruct (@hidden_spots_reply_without_array (Stub.runtime Stub.known) "Kyoto, Japan"
              (Stub.searching (Stub.text_only Stub.short_curve_text))
              (Stub.text_reply Stub.short_curve_text) Stub.short_curve_text
              Stub.short_curve_plan eq_refl eq_refl eq_refl) as [Hobject _].
  apply Hobject; discriminate.
Defined.

(** ** The reference image *)

Lemma includes_unfold (s sub : string) :
  JSString.includes s sub
  = String.prefix sub s ||
    match s with
    | EmptyString => false
    | String _ rest => JSString.includes rest sub
    end.
Proof. destruct s; reflexivity. Qed.

Lemma includes_here (s sub : string) :
  String.prefix sub s = true -> JSString.includes s sub = true.
Proof. intros Hprefix. rewrite includes_unfold, Hprefix. reflexivity. Qed.

Lemma includes_append (a b sub : string) :
  JSString.includes b sub = true -> JSString.includes (a +:+ b) sub = true.
Proof.
  intros Hb. induction a as [|c a IH]; [exact Hb|].
  change (String c a +:+ b) with (String c (a +:+ b)).
  rewrite includes_unfold, IH. apply orb_true_r.
Qed.


(** ** The spot image *)


(** ** Other ways the poll loop ends *)

Lemma poll_done (script : list (JSError + Operation)) (operation : Operation) (w : World) :
  done operation = true -> poll script operation w = (Return operation, w).
Proof. intros Hdone. destruct script; cbn [poll]; rewrite Hdone; reflexivity. Qed.

Lemma poll_until_rejected (pending : list Operation) (e : JSError)
    (rest : list (JSError + Operation)) (submitted : Operation) (w : World) :
  done submitted = false ->
  Forall (fun operation => done operation = false) pending ->
  polls w = (map inr pending ++ inl e :: rest)%list ->
  poll (map inr pending ++ inl e :: rest) submitted w
  = (Throw e, after_polls (submitted :: pending) rest w).
Proof.
  revert submitted w.
  induction pending as [|next pending IH]; intros submitted w Hsub Hpend Hscript;
    cbn [map app] in *.
  - rewrite poll_step by assumption. reflexivity.
  - inversion Hpend as [|? ? Hnext Hpend']; subst.
    rewrite poll_step by assumption.
    rewrite IH by (assumption || reflexivity).
    rewrite after_polls_after_polls. reflexivity.
Qed.

Lemma poll_script_exhausted (pending : list Operation) (submitted : Operation) (w : World) :
  done submitted = false ->
  Forall (fun operation => done operation = false) pending ->
  polls w = map inr pending ->
  poll (map inr pending) submitted w
  = (Unsettled, after_polls (submitted :: pending) [] w).
Proof.
  revert submitted w.
  induction pending as [|next pending IH]; intros submitted w Hsub Hpend Hscript;
    cbn [map] in *.
  - cbn [poll]. rewrite Hsub. io_run. rewrite Hscript.
    unfold after_polls, poll_events, logged. cbn. rewrite <- app_assoc. reflexivity.
  - inversion Hpend as [|? ? Hnext Hpend']; subst.
    rewrite poll_step by assumption.
    rewrite IH by (assumption || reflexivity).
    rewrite after_polls_after_polls. reflexivity.
Qed.

(** X5: a job that is already done when it is submitted is never polled: no
    wait and no status query follow the submission, the clock and the
    scripted replies are untouched, and the only request that can follow is
    the download. *)
Theorem finished_at_submission_never_polls `{Runtime}
    (imageBase64 prompt : string) (ratio : AspectRatio) (w : World)
    (submitted : Operation) :
  generateVideos (service w) (videos_request (cleanBase64 imageBase64) prompt ratio)
  = inr submitted ->
  done submitted = true ->
  exists later,
    log (snd (generateDroneVideo imageBase64 prompt ratio w))
    = (log w ++ CallGenerateVideos (videos_request (cleanBase64 imageBase64) prompt ratio)
       :: later)%list /\
    (later = [] \/ exists url, later = [CallFetch url]) /\
    now (snd (generateDroneVideo imageBase64 prompt ratio w)) = now w /\
    polls (snd (generateDroneVideo imageBase64 prompt ratio w)) = polls w.
Proof.
  intros Hsubmit Hdone. unfold generateDroneVideo. io_run. rewrite Hsubmit. cbn.
  unfold while_not_done. rewrite poll_done by exact Hdone.
  destruct (error submitted); cbn; [exists []; auto|].
  destruct (downloadLink submitted) as [[|c rest]|]; cbn; [exists []; auto| |exists []; auto].
  match goal with |- context [fetch ?s ?u] => destruct (fetch s u) as [e|reply] end; cbn;
    [eexists; rewrite <- app_assoc; split; [reflexivity|]; eauto|].
  destruct (ok reply); cbn;
    [|eexists; rewrite <- app_assoc; split; [reflexivity|]; eauto].
  destruct (blob reply); cbn; eexists; rewrite <- app_assoc; (split; [reflexivity|]); eauto.
Qed.

Lemma finished_at_submission_never_polls_witness :
  @generateDroneVideo (Stub.runtime []) "AAAA" "fly" Ratio16x9 Scene.instant_filming
  = (Return "blob:mp4",
     logged [CallGenerateVideos (videos_request "AAAA" "fly" Ratio16x9);
             CallFetch "https://videos.example/clip?alt=media&key=k"]
       Scene.instant_filming) /\
  exists later,
    log (snd (@generateDroneVideo (Stub.runtime []) "AAAA" "fly" Ratio16x9
                Scene.instant_filming))
    = CallGenerateVideos (videos_request "AAAA" "fly" Ratio16x9) :: later /\
    (later = [] \/ exists url, later = [CallFetch url]).
Proof.
  split; [reflexivity|].
  destruct (@finished_at_submission_never_polls (Stub.runtime []) "AAAA" "fly" Ratio16x9
              Scene.instant_filming Stub.finished_job eq_refl eq_refl)
    as (later & Hlog & Hshape & _).
  exists later. split; [exact Hlog|exact Hshape].
Defined.

(** X6: when a status query is rejected, the loop stops there:
    [generateDroneVideo] rejects with [formatError] of that error, after one
    query for the submitted job and one for each reply before; the replies
    still scripted are left unasked and nothing is downloaded. *)
Theorem rejected_status_query_ends_the_run `{Runtime}
    (imageBase64 prompt : string) (ratio : AspectRatio) (w : World)
    (submitted : Operation) (pending : list Operation) (e : JSError)
    (rest : list (JSError + Operation)) :
  generateVideos (service w) (videos_request (cleanBase64 imageBase64) prompt ratio)
  = inr submitted ->
  done submitted = false ->
  Forall (fun operation => done operation = false) pending ->
  polls w = (map inr pending ++ inl e :: rest)%list ->
  exists w',
    generateDroneVideo imageBase64 prompt ratio w
    = (Throw (Error (formatError e)), w') /\
    log w' =
      (log w ++ CallGenerateVideos (videos_request (cleanBase64 imageBase64) prompt ratio)
       :: poll_events (submitted :: pending))%list /\
    polls w' = rest.
Proof.
  intros Hsubmit Hsub Hpending Hscript.
  unfold generateDroneVideo. io_run. rewrite Hsubmit. cbn.
  unfold while_not_done. cbn [polls logged]. rewrite Hscript.
  rewrite poll_until_rejected by assumption. cbn.
  eexists. split; [reflexivity|]. cbn. split; [|reflexivity].
  rewrite <- !app_assoc. reflexivity.
Qed.

Lemma rejected_status_query_ends_the_run_witness :
  exists w',
    @generateDroneVideo (Stub.runtime []) "AAAA" "fly" Ratio16x9
      (Stub.filming [inr Stub.pending_job; inl (Error "HTTP 429"); inr Stub.finished_job])
    = (Throw (Error "Rate limit exceeded. The API is busy, please wait a moment and try again."),
       w') /\
    status_queries (log w') = [Stub.pending_job; Stub.pending_job] /\
    polls w' = [inr Stub.finished_job].
Proof.
  destruct (@rejected_status_query_ends_the_run (Stub.runtime []) "AAAA" "fly" Ratio16x9
              (Stub.filming [inr Stub.pending_job; inl (Error "HTTP 429");
                             inr Stub.finished_job])
              Stub.pending_job [Stub.pending_job] (Error "HTTP 429")
              [inr Stub.finished_job] eq_refl eq_refl)
    as (w' & Hrun & Hlog & Hleft); [repeat constructor|reflexivity|].
  exists w'. split; [exact Hrun|]. rewrite Hlog. split; [reflexivity|exact Hleft].
Defined.

(** X7: replies that never say "done" keep the loop going to the end of
    every script: one wait and one query per reply and one more, and the
    call is still not settled; it neither rejects nor gives up. *)
Theorem polling_never_gives_up `{Runtime}
    (imageBase64 prompt : string) (ratio : AspectRatio) (w : World)
    (submitted : Operation) (pending : list Operation) :
  generateVideos (service w) (videos_request (cleanBase64 imageBase64) prompt ratio)
  = inr submitted ->
  done submitted = false ->
  Forall (fun operation => done operation = false) pending ->
  polls w = map inr pending ->
  exists w',
    generateDroneVideo imageBase64 prompt ratio w = (Unsettled, w') /\
    log w' =
      (log w ++ CallGenerateVideos (videos_request (cleanBase64 imageBase64) prompt ratio)
       :: poll_events (submitted :: pending))%list /\
    length (status_queries (poll_events (submitted :: pending))) = S (length pending) /\
    now w' = (now w + 5000 * Z.of_nat (S (length pending)))%Z.
Proof.
  intros Hsubmit Hsub Hpending Hscript.
  unfold generateDroneVideo. io_run. rewrite Hsubmit. cbn.
  unfold while_not_done. cbn [polls logged]. rewrite Hscript.
  rewrite poll_script_exhausted by assumption. cbn.
  eexists. split; [reflexivity|]. cbn. rewrite status_queries_poll_events.
  split; [|split; reflexivity]. rewrite <- !app_assoc. reflexivity.
Qed.

Lemma polling_never_gives_up_witness :
  exists w',
    @generateDroneVideo (Stub.runtime []) "AAAA" "fly" Ratio16x9
      (Stub.filming [inr Stub.pending_job; inr Stub.pending_job])
    = (Unsettled, w') /\
    length (status_queries (log w')) = 3 /\
    now w' = (1700000000000 + 15000)%Z.
Proof.
  destruct (@polling_never_gives_up (Stub.runtime []) "AAAA" "fly" Ratio16x9
              (Stub.filming [inr Stub.pending_job; inr Stub.pending_job])
              Stub.pending_job [Stub.pending_job; Stub.pending_job] eq_refl eq_refl)
    as (w' & Hrun & Hlog & _ & Hnow); [repeat constructor|reflexivity|].
  exists w'. split; [exact Hrun|]. rewrite Hlog, Hnow. split; reflexivity.
Defined.

(** X8: once the job is done without error, three things can still fail, each
    with its own message: a result without a video URI (nothing is then
    downloaded), a download answered "not ok", and a download or a body that
    is rejected. *)
Theorem retrieval_failures `{Runtime}
    (imageBase64 prompt : string) (ratio : AspectRatio) (w w1 : World)
    (submitted final : Operation) :
  generateVideos (service w) (videos_request (cleanBase64 imageBase64) prompt ratio)
  = inr submitted ->
  while_not_done submitted
    (logged [CallGenerateVideos (videos_request (cleanBase64 imageBase64) prompt ratio)] w)
  = (Return final, w1) ->
  error final = None ->
  (downloadLink final = None \/ downloadLink final = Some "" ->
   generateDroneVideo imageBase64 prompt ratio w
   = (Throw (Error "AI Request Failed: No video URI returned"), w1)) /\
  (forall link,
     downloadLink final = Some link -> link <> "" ->
     snd (generateDroneVideo imageBase64 prompt ratio w)
     = logged [CallFetch (link +:+ "&key=" +:+ JSString.template (API_KEY (service w1)))] w1 /\
     fst (generateDroneVideo imageBase64 prompt ratio w)
     = match fetch (service w1)
               (link +:+ "&key=" +:+ JSString.template (API_KEY (service w1))) with
       | inl e => Throw (Error (formatError e))
       | inr reply =>
           if ok reply then
             match blob reply with
             | inl e => Throw (Error (formatError e))
             | inr bytes => Return (URL_createObjectURL bytes)
             end
           else Throw (Error "AI Request Failed: Failed to download video content")
       end).
Proof.
  intros Hsubmit Hpoll Hok.
  unfold generateDroneVideo. io_run. rewrite Hsubmit. cbn. rewrite Hpoll, Hok. split.
  - intros [-> | ->]; reflexivity.
  - intros link -> Hfilled. destruct link as [|c rest]; [congruence|]. cbn.
    match goal with |- context [fetch ?s ?u] => destruct (fetch s u) as [e|reply] end; cbn;
      [split; reflexivity|].
    destruct (ok reply); cbn; [|split; reflexivity].
    destruct (blob reply); split; reflexivity.
Qed.

Lemma retrieval_failures_witness :
  @generateDroneVideo (Stub.runtime []) "AAAA" "fly" Ratio16x9
    (Stub.filming [inr Scene.empty_job])
  = (Throw (Error "AI Request Failed: No video URI returned"),
     after_polls [Stub.pending_job] []
       (logged [CallGenerateVideos (videos_request "AAAA" "fly" Ratio16x9)]
          (Stub.filming [inr Scene.empty_job]))).
Proof.
  destruct (@retrieval_failures (Stub.runtime []) "AAAA" "fly" Ratio16x9
              (Stub.filming [inr Scene.empty_job]) _ Stub.pending_job Scene.empty_job
              eq_refl eq_refl eq_refl) as [Hmissing _].
  apply Hmissing. left. reflexivity.
Defined.

(** * Further properties of the handlers *)

(** ** The plan handler *)

Lemma itinerary_outcome_message `{Runtime}
    (reply : JSError + GenerateContentResponse) (e : JSError) :
  itinerary_outcome reply = Throw e -> err_message e <> "".
Proof.
  unfold itinerary_outcome. destruct reply as [cause|response].
  - intros [= <-]. apply formatError_nonempty.
  - destruct (text response) as [[|c rest]|]; [intros [= <-]; discriminate| |
      intros [= <-]; discriminate].
    destruct (JSON_parse (String c rest)); [discriminate|]. intros [= <-]. discriminate.
Qed.

Lemma or_else_nonempty (s fallback : string) : s <> "" -> JSString.or_else s fallback = s.
Proof. destruct s; [congruence|reflexivity]. Qed.

(** X9: when the text call is rejected, [handleDeepPlan] still returns; no
    plan, no chat session and no transcript are left, the error shown is the
    message of the rejection (the handler's own default text is never
    needed), loading is over, and the previews are stored all the same. *)
Theorem plan_failure_clears_and_reports `{Runtime} (w : World) (e : JSError) :
  location (agent w) <> "" ->
  fst (generateDeepTravelItinerary (location (agent w)) w) = Throw e ->
  exists w',
    handleDeepPlan w = (Return tt, w') /\
    error_ (agent w') = Some (err_message e) /\
    err_message e <> "" /\
    travelData (agent w') = None /\
    chatRef (agent w') = None /\
    chatMessages (agent w') = [] /\
    hiddenSpots (agent w') = None /\
    loading (agent w') = false /\
    images (agent w')
    = omap (preview_of (service w)) (preview_prompts (location (agent w))).
Proof.
  intros Hfilled Hthrow. rewrite generateDeepTravelItinerary_run in Hthrow.
  cbn [fst] in Hthrow. pose proof (itinerary_outcome_message _ _ Hthrow) as Hmessage.
  unfold handleDeepPlan, bind at 1, get_agent.
  rewrite (truthy_nonempty _ Hfilled). io_run.
  rewrite generateLocationPreviews_run. cbn.
  rewrite generateDeepTravelItinerary_run. cbn. rewrite Hthrow. cbn.
  rewrite (or_else_nonempty _ _ Hmessage).
  eexists. split; [reflexivity|]. cbn. repeat split. exact Hmessage.
Qed.

Lemma plan_failure_clears_and_reports_witness :
  exists w',
    @handleDeepPlan (Stub.runtime Stub.known) (Stub.searching (Stub.text_only Stub.prose))
    = (Return tt, w') /\
    error_ (agent w') = Some "AI Request Failed: Failed to parse the travel plan data." /\
    travelData (agent w') = None.
Proof.
  destruct (@plan_failure_clears_and_reports (Stub.runtime Stub.known)
              (Stub.searching (Stub.text_only Stub.prose))
              (Error "AI Request Failed: Failed to parse the travel plan data.")
              ltac:(discriminate) eq_refl)
    as (w' & Hrun & Herror & _ & Hdata & _).
  exists w'. split; [exact Hrun|]. split; [exact Herror|exact Hdata].
Defined.

(** X10: when the text call succeeds, [handleDeepPlan] replaces whatever
    session and transcript there were by a session seeded with the
    serialised plan and a transcript of one greeting; hidden-spot results
    are gone; the three image requests left before the text request; the
    location, the typed chat input and the video page are untouched. *)
Theorem plan_success_opens_fresh_chat `{Runtime} (w : World) (plan : JValue) :
  location (agent w) <> "" ->
  fst (generateDeepTravelItinerary (location (agent w)) w) = Return plan ->
  exists w',
    handleDeepPlan w = (Return tt, w') /\
    chatRef (agent w') = Some (createTravelChat (JSON_stringify plan)) /\
    chatMessages (agent w') =
      [{| msg_id := "init"; role := Model;
          msg_text := "I have analyzed the location. Ask me anything about the plan or the destination!" |}] /\
    hiddenSpots (agent w') = None /\
    hiddenSpotImages (agent w') = ∅ /\
    mode (agent w') = PlanMode /\
    activeTab (agent w') = Overview /\
    log w' =
      (log w
       ++ map (fun prompt => CallGenerateContent (image_request prompt None))
            (preview_prompts (location (agent w)))
       ++ [CallGenerateContent (itinerary_request (location (agent w)))])%list /\
    location (agent w') = location (agent w) /\
    chatInput (agent w') = chatInput (agent w) /\
    veo w' = veo w.
Proof.
  intros Hfilled Hplan. rewrite generateDeepTravelItinerary_run in Hplan.
  cbn [fst] in Hplan.
  unfold handleDeepPlan, bind at 1, get_agent.
  rewrite (truthy_nonempty _ Hfilled). io_run.
  rewrite generateLocationPreviews_run. cbn.
  rewrite generateDeepTravelItinerary_run. cbn. rewrite Hplan. cbn.
  eexists. split; [reflexivity|]. cbn. repeat split.
  rewrite <- app_assoc. reflexivity.
Qed.

Lemma plan_success_opens_fresh_chat_witness :
  exists w',
    @handleDeepPlan (Stub.runtime Stub.known)
      (Stub.searching (Stub.text_only Stub.short_curve_text)) = (Return tt, w') /\
    chatRef (agent w')
    = Some {| chat_model := "gemini-3-pro-preview";
              chat_systemInstruction := chat_instruction "{}" |} /\
    length (log w') = 4.
Proof.
  destruct (@plan_success_opens_fresh_chat (Stub.runtime Stub.known)
              (Stub.searching (Stub.text_only Stub.short_curve_text))
              Stub.short_curve_plan ltac:(discriminate) eq_refl)
    as (w' & Hrun & Hchat & _ & _ & _ & _ & _ & Hlog & _).
  exists w'. split; [exact Hrun|]. split; [exact Hchat|]. rewrite Hlog. reflexivity.
Defined.

(** ** The hidden-spots handler *)

Lemma with_hiddenSpotImages_same (a : TravelAgentState) :
  with_hiddenSpotImages (hiddenSpotImages a) a = a.
Proof. destruct a. reflexivity. Qed.

Lemma pictured_same (events : list Event) (w : World) :
  pictured events (hiddenSpotImages (agent w)) w = logged events w.
Proof. unfold pictured, logged. rewrite with_hiddenSpotImages_same. reflexivity. Qed.

Lemma pictured_pictured (first second : list Event) (m m' : gmap string string) (w : World) :
  pictured second m' (pictured first m w) = pictured (first ++ second) m' w.
Proof. unfold pictured. cbn. rewrite app_assoc. reflexivity. Qed.

Lemma spot_requests_cons `{Runtime} (place : string) (spot : JValue) (spots : list JValue) :
  (option_list (spot_request place spot) ++ omap (spot_request place) spots)%list
  = omap (spot_request place) (spot :: spots).
Proof. cbn [omap list_omap]. destruct (spot_request place spot); reflexivity. Qed.

(** A name that converts: the request leaves and its image, if any, is kept. *)
Lemma named_spot_run `{Runtime} (place : string) (name : option JValue) (key : string) (w : World) :
  ToString_opt name = Some key ->
  generateSpotImage_named name place w
  = (Return (preview_of (service w) (spot_prompt key place)),
     logged [CallGenerateContent (image_request (spot_prompt key place) None)] w).
Proof.
  intros Hkey. unfold generateSpotImage_named. rewrite Hkey.
  rewrite <- preview_request_run. reflexivity.
Qed.

(** On a name that is a string, the call is [generateSpotImage] as typed. *)
Lemma named_spot_is_generateSpotImage `{Runtime} (spotName place : string) :
  generateSpotImage_named (Some (JStr spotName)) place = generateSpotImage spotName place.
Proof. reflexivity. Qed.

(** A name that does not convert: the call fulfils with [null] and nothing
    leaves. *)
Lemma unnamed_spot_run `{Runtime} (place : string) (name : option JValue) (w : World) :
  ToString_opt name = None ->
  generateSpotImage_named name place w = (Return None, w).
Proof. intros Hkey. unfold generateSpotImage_named. rewrite Hkey. reflexivity. Qed.

Lemma spot_image_run `{Runtime} (place : string) (spot : JValue) (w : World) :
  spot <> JNull ->
  spot_image place spot w
  = (Return tt,
     pictured (option_list (spot_request place spot))
       (add_spot_picture (service w) place (hiddenSpotImages (agent w)) spot) w).
Proof.
  intros Hspot.
  assert (forall name : option JValue,
            (let! imgUrl := generateSpotImage_named name place in
             match imgUrl with
             | Some (String c rest) =>
                 match ToString_opt name with
                 | Some key =>
                     setHiddenSpotImages (fun prev => <[key := String c rest]> prev)
                 | None => ret tt
                 end
             | _ => ret tt
             end) w
            = (Return tt,
               pictured
                 (option_list
                    (key ← ToString_opt name;
                     Some (CallGenerateContent
                             (image_request (spot_prompt key place) None))))
                 match ToString_opt name with
                 | Some key =>
                     match spot_picture (service w) place key with
                     | Some image => <[key := image]> (hiddenSpotImages (agent w))
                     | None => hiddenSpotImages (agent w)
                     end
                 | None => hiddenSpotImages (agent w)
                 end w)) as Hnamed.
  { intros name. unfold bind. destruct (ToString_opt name) as [key|] eqn:Hkey.
    - rewrite (named_spot_run _ _ _ _ Hkey). unfold spot_picture. cbn.
      destruct (preview_of (service w) (spot_prompt key place))
        as [[|c rest]|]; try (unfold ret; rewrite pictured_same; reflexivity).
      reflexivity.
    - rewrite (unnamed_spot_run _ _ _ Hkey). cbn. unfold ret.
      rewrite pictured_same, logged_nil. reflexivity. }
  unfold spot_image, add_spot_picture, spot_request, spot_key.
  destruct spot; try congruence; unfold bind at 1, spot_name, ret; apply Hnamed.
Qed.

Lemma forEach_run `{Runtime} (place : string) (spots : list JValue) (w : World) :
  Forall (fun spot => spot <> JNull) spots ->
  Promise_all_map (spot_image place) spots w
  = (Return (map (fun _ => tt) spots),
     pictured (omap (spot_request place) spots)
       (foldl (add_spot_picture (service w) place) (hiddenSpotImages (agent w)) spots) w).
Proof.
  revert w. induction spots as [|spot spots IH]; intros w Hspots.
  - cbn. rewrite pictured_same, logged_nil. reflexivity.
  - inversion Hspots as [|? ? Hspot Hrest]; subst.
    cbn [Promise_all_map]. unfold bind at 1. rewrite spot_image_run by exact Hspot.
    unfold bind at 1. rewrite IH by exact Hrest. unfold ret.
    rewrite pictured_pictured, spot_requests_cons. reflexivity.
Qed.

Lemma forEach_stops `{Runtime} (place : string) (before after : list JValue) (w : World) :
  Forall (fun spot => spot <> JNull) before ->
  exists e,
    Promise_all_map (spot_image place) (before ++ JNull :: after) w
    = (Throw e,
       pictured (omap (spot_request place) before)
         (foldl (add_spot_picture (service w) place) (hiddenSpotImages (agent w)) before) w)
    /\ err_message e <> "".
Proof.
  revert w. induction before as [|spot before IH]; intros w Hspots.
  - eexists. cbn. rewrite pictured_same, logged_nil. split; [reflexivity|discriminate].
  - inversion Hspots as [|? ? Hspot Hrest]; subst.
    destruct (IH (pictured (option_list (spot_request place spot))
                    (add_spot_picture (service w) place (hiddenSpotImages (agent w)) spot) w)
                Hrest) as (e & Hrun & Hmessage).
    exists e. split; [|exact Hmessage].
    cbn [Promise_all_map app]. unfold bind at 1. rewrite spot_image_run by exact Hspot.
    unfold bind at 1. rewrite Hrun. rewrite pictured_pictured, spot_requests_cons.
    reflexivity.
Qed.

Lemma spot_pictures_lookup `{Runtime} (s : Service) (place : string)
    (spots : list JValue) (start : gmap string string) (key : string) :
  foldl (add_spot_picture s place) start spots !! key
  = if bool_decide (Some key ∈ map spot_key spots)
    then match spot_picture s place key with
         | Some image => Some image
         | None => start !! key
         end
    else start !! key.
Proof.
  revert start. induction spots as [|spot spots IH]; intros start; [reflexivity|].
  cbn [foldl map]. rewrite IH.
  assert (add_spot_picture s place start spot !! key
          = if decide (Some key = spot_key spot)
            then match spot_picture s place key with
                 | Some image => Some image
                 | None => start !! key
                 end
            else start !! key) as ->.
  { unfold add_spot_picture. destruct (decide (Some key = spot_key spot)) as [<-|Hother].
    - destruct (spot_picture s place key); [apply lookup_insert_eq|reflexivity].
    - destruct (spot_key spot) as [other|]; [|reflexivity].
      destruct (spot_picture s place other);
        [apply lookup_insert_ne; congruence|reflexivity]. }
  destruct (decide (Some key = spot_key spot)) as [Hsame|Hother].
  - rewrite (bool_decide_eq_true_2 (Some key ∈ spot_key spot :: map spot_key spots))
      by (rewrite Hsame; apply list_elem_of_here).
    destruct (bool_decide (Some key ∈ map spot_key spots));
      destruct (spot_picture s place key); reflexivity.
  - assert (bool_decide (Some key ∈ spot_key spot :: map spot_key spots)
            = bool_decide (Some key ∈ map spot_key spots)) as ->; [|reflexivity].
    apply bool_decide_ext. rewrite elem_of_cons. tauto.
Qed.

Lemma spot_requests_short `{Runtime} (place : string) (spots : list JValue) :
  length (omap (spot_request place) spots) <= length spots.
Proof.
  induction spots as [|spot spots IH]; [reflexivity|].
  cbn [omap list_omap]. destruct (spot_request place spot); cbn [length]; lia.
Qed.

Lemma hidden_spots_outcome_message `{Runtime}
    (reply : JSError + GenerateContentResponse) (e : JSError) :
  hidden_spots_outcome reply = Throw e -> err_message e <> "".
Proof.
  unfold hidden_spots_outcome. destruct reply as [cause|response].
  - intros [= <-]. apply formatError_nonempty.
  - destruct (text response) as [[|c rest]|]; [intros [= <-]; discriminate| |
      intros [= <-]; discriminate].
    destruct (JSON_parse (String c rest)) as [[]|]; try discriminate;
      intros [= <-]; discriminate.
Qed.

(** X11: after a reply that is an array without [null] entries,
    [handleHiddenSpots] stores its first five entries and ends without
    error.  After the list request one image request leaves for every
    stored spot whose name can be turned into a string, in order, so at
    most five; a spot whose name is an object with a [toString] entry of its
    own gets none.  The image map then has an entry exactly for the names of
    stored spots whose request yielded an image: a spot whose image failed
    has none, and no other key appears. *)
Theorem hidden_spots_are_pictured `{Runtime}
    (w : World) (reply : GenerateContentResponse) (t : string) (gems : list JValue) :
  location (agent w) <> "" ->
  generateContent (service w) (hidden_spots_request (location (agent w))) = inr reply ->
  text reply = Some t ->
  JSON_parse t = Some (JArr gems) ->
  Forall (fun spot => spot <> JNull) (take 5 gems) ->
  exists w',
    handleHiddenSpots w = (Return tt, w') /\
    hiddenSpots (agent w') = Some (JArr (take 5 gems)) /\
    error_ (agent w') = None /\
    loading (agent w') = false /\
    mode (agent w') = HiddenMode /\
    travelData (agent w') = None /\
    log w' =
      (log w ++ CallGenerateContent (hidden_spots_request (location (agent w)))
       :: omap (spot_request (location (agent w))) (take 5 gems))%list /\
    length (omap (spot_request (location (agent w))) (take 5 gems)) <= 5 /\
    (forall spot props shadow,
       spot ∈ take 5 gems ->
       field "name" spot = Some (JObj props) ->
       own_property "toString" props = Some shadow ->
       spot_request (location (agent w)) spot = None) /\
    (forall spot name,
       spot ∈ take 5 gems ->
       field "name" spot = Some (JStr name) ->
       spot_request (location (agent w)) spot
       = Some (CallGenerateContent
                 {| gc_model := "gemini-2.5-flash-image";
                    gc_contents :=
                      ContentsParts
                        ["A photorealistic travel photography shot of the hidden spot "
                         +:+ dq +:+ name +:+ dq +:+ " in " +:+ location (agent w)
                         +:+ ". High quality, detailed, scenic, natural lighting."];
                    gc_config := None |})) /\
    (forall key,
       hiddenSpotImages (agent w') !! key
       = if bool_decide (Some key ∈ map spot_key (take 5 gems))
         then spot_picture (service w) (location (agent w)) key
         else None).
Proof.
  intros Hfilled Hreply Htext Hparse Hspots.
  unfold handleHiddenSpots, bind at 1, get_agent.
  rewrite (truthy_nonempty _ Hfilled). io_run.
  rewrite searchHiddenSpots_run. cbn [service]. rewrite Hreply.
  unfold hidden_spots_outcome. rewrite Htext.
  destruct t as [|c rest]; [rewrite JSON_parse_empty in Hparse; discriminate|].
  rewrite Hparse.
  assert (length (take 5 gems) <= 5) as Hshort by (rewrite length_take; lia).
  revert Hspots Hshort. generalize (take 5 gems) as spots.
  intros spots Hnotnull Hshort. cbn. unfold forEach_spot, bind.
  rewrite forEach_run by exact Hnotnull. cbn.
  eexists. split; [reflexivity|]. cbn. repeat split; try assumption.
  - rewrite <- app_assoc. reflexivity.
  - pose proof (spot_requests_short (location (agent w)) spots). lia.
  - intros spot props shadow _ Hname Hshadow.
    unfold spot_request, spot_key. destruct spot; try discriminate.
    cbn in Hname. rewrite Hname. cbn. rewrite Hshadow. reflexivity.
  - intros spot name _ Hname.
    unfold spot_request, spot_key. destruct spot; try discriminate.
    cbn in Hname. rewrite Hname. reflexivity.
  - intros key. rewrite spot_pictures_lookup. rewrite lookup_empty.
    destruct (bool_decide _); [|reflexivity].
    destruct (spot_picture (service w) (location (agent w)) key); reflexivity.
Qed.

Lemma hidden_spots_are_pictured_witness :
  exists w',
    @handleHiddenSpots (Stub.runtime Shadowed.known) Shadowed.world = (Return tt, w') /\
    hiddenSpotImages (agent w') !! "A" = Some "data:image/png;base64,AAAA" /\
    hiddenSpotImages (agent w') !! "B" = None /\
    hiddenSpotImages (agent w') !! "[object Object]" = Some "data:image/png;base64,AAAA" /\
    hiddenSpotImages (agent w') !! "Kyoto" = None /\
    log w'
    = [CallGenerateContent (hidden_spots_request "Kyoto, Japan");
       CallGenerateContent (image_request (spot_prompt "A" "Kyoto, Japan") None);
       CallGenerateContent (image_request (spot_prompt "B" "Kyoto, Japan") None);
       CallGenerateContent
         (image_request (spot_prompt "[object Object]" "Kyoto, Japan") None)].
Proof.
  destruct (@hidden_spots_are_pictured (Stub.runtime Shadowed.known) Shadowed.world
              (Stub.text_reply Shadowed.text) Shadowed.text Shadowed.gems
              ltac:(discriminate) eq_refl eq_refl eq_refl)
    as (w' & Hrun & _ & _ & _ & _ & _ & Hlog & _ & _ & _ & Hlookup).
  - repeat constructor; discriminate.
  - exists w'. split; [exact Hrun|]. rewrite !Hlookup, Hlog. repeat split.
Defined.

(** X12: when the list call is rejected, [handleHiddenSpots] ends with no
    spots, the rejection's message as the error and loading over; the list
    request is the only request: no image is asked for. *)
Theorem hidden_spots_failure_sends_no_image_request `{Runtime} (w : World) (e : JSError) :
  location (agent w) <> "" ->
  fst (searchHiddenSpots (location (agent w)) w) = Throw e ->
  exists w',
    handleHiddenSpots w = (Return tt, w') /\
    hiddenSpots (agent w') = None /\
    hiddenSpotImages (agent w') = ∅ /\
    error_ (agent w') = Some (err_message e) /\
    err_message e <> "" /\
    loading (agent w') = false /\
    log w' = (log w ++ [CallGenerateContent (hidden_spots_request (location (agent w)))])%list.
Proof.
  intros Hfilled Hthrow. rewrite searchHiddenSpots_run in Hthrow. cbn [fst] in Hthrow.
  pose proof (hidden_spots_outcome_message _ _ Hthrow) as Hmessage.
  unfold handleHiddenSpots, bind at 1, get_agent.
  rewrite (truthy_nonempty _ Hfilled). io_run.
  rewrite searchHiddenSpots_run. cbn. rewrite Hthrow. cbn.
  rewrite (or_else_nonempty _ _ Hmessage).
  eexists. split; [reflexivity|]. cbn. repeat split. exact Hmessage.
Qed.

Lemma hidden_spots_failure_sends_no_image_request_witness :
  exists w',
    @handleHiddenSpots (Stub.runtime Stub.known) Gallery.prose_world = (Return tt, w') /\
    error_ (agent w') = Some "AI Request Failed: Failed to parse hidden spots data." /\
    length (log w') = 1.
Proof.
  destruct (@hidden_spots_failure_sends_no_image_request (Stub.runtime Stub.known)
              Gallery.prose_world
              (Error "AI Request Failed: Failed to parse hidden spots data.")
              ltac:(discriminate) eq_refl)
    as (w' & Hrun & _ & _ & Herror & _ & _ & Hlog).
  exists w'. split; [exact Hrun|]. rewrite Hlog. split; [exact Herror|reflexivity].
Defined.

(** X13: a [null] among the first five entries stops the fan-out there: the
    spots before it got their image requests (those whose name can be turned
    into a string) and keep the images that came back, none after it is
    asked for, and the handler ends with an error although the list itself
    stays stored. *)
Theorem null_spot_stops_the_fan_out `{Runtime}
    (w : World) (reply : GenerateContentResponse) (t : string)
    (gems before after : list JValue) :
  location (agent w) <> "" ->
  generateContent (service w) (hidden_spots_request (location (agent w))) = inr reply ->
  text reply = Some t ->
  JSON_parse t = Some (JArr gems) ->
  take 5 gems = (before ++ JNull :: after)%list ->
  Forall (fun spot => spot <> JNull) before ->
  exists w' message,
    handleHiddenSpots w = (Return tt, w') /\
    hiddenSpots (agent w') = Some (JArr (take 5 gems)) /\
    error_ (agent w') = Some message /\
    message <> "" /\
    loading (agent w') = false /\
    log w' =
      (log w ++ CallGenerateContent (hidden_spots_request (location (agent w)))
       :: omap (spot_request (location (agent w))) before)%list /\
    (forall key,
       hiddenSpotImages (agent w') !! key
       = if bool_decide (Some key ∈ map spot_key before)
         then spot_picture (service w) (location (agent w)) key
         else None).
Proof.
  intros Hfilled Hreply Htext Hparse Hsplit Hbefore.
  unfold handleHiddenSpots, bind at 1, get_agent.
  rewrite (truthy_nonempty _ Hfilled). io_run.
  rewrite searchHiddenSpots_run. cbn [service]. rewrite Hreply.
  unfold hidden_spots_outcome. rewrite Htext.
  destruct t as [|c rest]; [rewrite JSON_parse_empty in Hparse; discriminate|].
  rewrite Hparse, Hsplit. cbn [fst snd]. unfold forEach_spot, bind.
  match goal with
  | |- context [Promise_all_map (spot_image ?place) _ ?w1] =>
      destruct (forEach_stops place before after w1 Hbefore) as (e & Hrun & Hmessage)
  end.
  rewrite Hrun. cbn. rewrite (or_else_nonempty _ _ Hmessage).
  eexists. exists (err_message e).
  split; [reflexivity|]. cbn. repeat split; try assumption.
  - rewrite <- app_assoc. reflexivity.
  - intros key. rewrite spot_pictures_lookup. rewrite lookup_empty.
    destruct (bool_decide _); [|reflexivity].
    destruct (spot_picture (service w) (location (agent w)) key); reflexivity.
Qed.

Lemma null_spot_stops_the_fan_out_witness :
  exists w' message,
    @handleHiddenSpots (Stub.runtime Shadowed.known) Shadowed.cut_world = (Return tt, w') /\
    hiddenSpots (agent w') = Some (JArr Shadowed.cut_gems) /\
    error_ (agent w') = Some message /\
    hiddenSpotImages (agent w') !! "A" = Some "data:image/png;base64,AAAA" /\
    hiddenSpotImages (agent w') !! "C" = None /\
    log w'
    = [CallGenerateContent (hidden_spots_request "Kyoto, Japan");
       CallGenerateContent (image_request (spot_prompt "A" "Kyoto, Japan") None)].
Proof.
  destruct (@null_spot_stops_the_fan_out (Stub.runtime Shadowed.known) Shadowed.cut_world
              (Stub.text_reply Shadowed.cut_text) Shadowed.cut_text Shadowed.cut_gems
              [Shadowed.unprintable; Stub.gem "A"] [Stub.gem "C"]
              ltac:(discriminate) eq_refl eq_refl eq_refl eq_refl)
    as (w' & message & Hrun & Hspots & Herror & _ & _ & Hlog & Hlookup).
  - repeat constructor; discriminate.
  - exists w', message. split; [exact Hrun|]. split; [exact Hspots|].
    split; [exact Herror|]. rewrite !Hlookup, Hlog. repeat split.
Defined.

(** ** The chat handler *)

(** X14: when the send succeeds, the transcript gains the user's message and
    then one model message with the reply's text, or with "I couldn't
    generate a response." when the reply has no text or an empty one; the
    input field is emptied; the one request carries the typed text alone;
    plan, error and session stay as they were. *)
Theorem send_success_appends_reply `{Runtime}
    (w : World) (chat : Chat) (reply : GenerateContentResponse) :
  chatRef (agent w) = Some chat ->
  all_whitespace (chatInput (agent w)) = false ->
  sendMessage (service w) chat (chatInput (agent w)) = inr reply ->
  exists w',
    handleSendMessage w = (Return tt, w') /\
    chatMessages (agent w') =
      ((chatMessages (agent w)
        ++ [{| msg_id := Number_toString (inject_Z (now w));
               role := User; msg_text := chatInput (agent w) |}])
        ++ [{| msg_id := Number_toString (inject_Z (now w + 1));
               role := Model;
               msg_text :=
                 match text reply with
                 | Some (String c rest) => String c rest
                 | _ => "I couldn't generate a response."
                 end |}])%list /\
    chatInput (agent w') = "" /\
    chatLoading (agent w') = false /\
    log w' = (log w ++ [CallSendMessage chat (chatInput (agent w))])%list /\
    travelData (agent w') = travelData (agent w) /\
    error_ (agent w') = error_ (agent w) /\
    chatRef (agent w') = Some chat.
Proof.
  intros Hchat Hinput Hsend.
  unfold handleSendMessage, bind at 1, get_agent.
  rewrite (trim_truthy _ Hinput), Hchat.
  io_run. rewrite Hchat. io_run. rewrite Hsend. io_run.
  eexists. split; [reflexivity|]. cbn.
  repeat split; try assumption.
  destruct (text reply) as [[|c rest]|]; reflexivity.
Qed.

Lemma send_success_appends_reply_witness :
  exists w',
    @handleSendMessage (Stub.runtime []) Chatting.world = (Return tt, w') /\
    map msg_text (chatMessages (agent w'))
    = ["Where to stay?"; "I couldn't generate a response."] /\
    map msg_id (chatMessages (agent w')) = ["1700000000000"; "1700000000001"].
Proof.
  destruct (@send_success_appends_reply (Stub.runtime []) Chatting.world
              Stub.kyoto_chat Chatting.silent eq_refl eq_refl eq_refl)
    as (w' & Hrun & Hmessages & _).
  exists w'. split; [exact Hrun|]. rewrite Hmessages. split; reflexivity.
Defined.

(** X15: [handleSendMessage] always returns and only ever appends to the
    transcript: either nothing, or the user's message followed by one model
    message; it never touches the plan, the previews, the hidden spots, the
    error, the location or the session. *)
Theorem transcript_only_grows `{Runtime} (w : World) :
  exists w' added,
    handleSendMessage w = (Return tt, w') /\
    chatMessages (agent w') = (chatMessages (agent w) ++ added)%list /\
    (added = [] \/
     exists sent answer,
       added = [sent; answer] /\
       role sent = User /\ msg_text sent = chatInput (agent w) /\
       role answer = Model /\ msg_text answer <> "") /\
    travelData (agent w') = travelData (agent w) /\
    images (agent w') = images (agent w) /\
    hiddenSpots (agent w') = hiddenSpots (agent w) /\
    error_ (agent w') = error_ (agent w) /\
    location (agent w') = location (agent w) /\
    chatRef (agent w') = chatRef (agent w).
Proof.
  unfold handleSendMessage, bind at 1, get_agent.
  destruct (negb (JSString.truthy (JSString.trim (chatInput (agent w))))
            || is_null (chatRef (agent w))) eqn:Hguard.
  - exists w, []. rewrite app_nil_r. repeat split. left. reflexivity.
  - apply orb_false_elim in Hguard as [_ Hopen].
    destruct (chatRef (agent w)) as [chat|] eqn:Hchat; [|discriminate].
    io_run. rewrite Hchat. io_run.
    destruct (sendMessage (service w) chat (chatInput (agent w))) as [e|reply]; io_run.
    + eexists. eexists. split; [reflexivity|]. cbn. rewrite <- app_assoc.
      split; [reflexivity|]. repeat split; try assumption.
      right. eexists. eexists. repeat split. discriminate.
    + eexists. eexists. split; [reflexivity|]. cbn. rewrite <- app_assoc.
      split; [reflexivity|]. repeat split; try assumption.
      right. eexists. eexists. repeat split.
      destruct (text reply) as [[|c rest]|]; discriminate.
Qed.

(** ** The service functions leave the React state alone *)

Lemma framed_ret {A} (a : A) : framed (ret a).
Proof. intros ? ? ?. reflexivity. Qed.

Lemma framed_throw {A} (e : JSError) : framed (@throw A e).
Proof. intros ? ? ?. reflexivity. Qed.

Lemma framed_unsettled {A} : framed (@unsettled A).
Proof. intros ? ? ?. reflexivity. Qed.

Lemma framed_settle {A} (r : JSError + A) : framed (settle r).
Proof. destruct r; [apply framed_throw|apply framed_ret]. Qed.

Lemma framed_emit (e : Event) : framed (emit e).
Proof. intros ? ? ?. reflexivity. Qed.

Lemma framed_setTimeout (ms : Z) : framed (setTimeout ms).
Proof. intros ? ? ?. reflexivity. Qed.

Lemma framed_env_API_KEY : framed env_API_KEY.
Proof. intros ? ? ?. reflexivity. Qed.

Lemma framed_bind {A B} (m : IO A) (k : A -> IO B) :
  framed m -> (forall x, framed (k x)) -> framed (bind m k).
Proof.
  intros Hm Hk a v w. unfold bind. rewrite Hm.
  destruct (m w) as [[x|e|] w1]; cbn [fst snd]; [apply Hk|reflexivity|reflexivity].
Qed.

Lemma framed_try_catch {A} (m : IO A) (h : JSError -> IO A) :
  framed m -> (forall e, framed (h e)) -> framed (try_catch m h).
Proof.
  intros Hm Hh a v w. unfold try_catch. rewrite Hm.
  destruct (m w) as [[x|e|] w1]; cbn [fst snd]; [reflexivity|apply Hh|reflexivity].
Qed.

Lemma framed_service_reply {A} (reply : Service -> JSError + A) :
  framed (fun w => settle (reply (service w)) w).
Proof. intros a v w. cbn [service reframe]. apply framed_settle. Qed.

Lemma framed_models_generateContent (p : GenerateContentParameters) :
  framed (models_generateContent p).
Proof.
  apply framed_bind; [apply framed_emit|]. intros _.
  apply (framed_service_reply (fun s => generateContent s p)).
Qed.

Lemma framed_models_generateVideos (p : GenerateVideosParameters) :
  framed (models_generateVideos p).
Proof.
  apply framed_bind; [apply framed_emit|]. intros _.
  apply (framed_service_reply (fun s => generateVideos s p)).
Qed.

Lemma framed_window_fetch (url : string) : framed (window_fetch url).
Proof.
  apply framed_bind; [apply framed_emit|]. intros _.
  apply (framed_service_reply (fun s => fetch s url)).
Qed.

Lemma framed_operations_getVideosOperation (operation : Operation) :
  framed (operations_getVideosOperation operation).
Proof.
  apply framed_bind; [apply framed_emit|]. intros _ a v w. cbn [polls reframe].
  destruct (polls w) as [|reply rest]; [reflexivity|]. destruct reply; reflexivity.
Qed.

Create HintDb framed.
#[local] Hint Resolve framed_ret framed_throw framed_unsettled framed_settle framed_emit
  framed_setTimeout framed_env_API_KEY framed_models_generateContent
  framed_models_generateVideos framed_window_fetch
  framed_operations_getVideosOperation : framed.

Lemma framed_poll (script : list (JSError + Operation)) (operation : Operation) :
  framed (poll script operation).
Proof.
  revert operation. induction script as [|reply rest IH]; intros operation; cbn [poll];
    (destruct (done operation); [auto with framed|]);
    apply framed_bind; auto with framed; intros _; apply framed_bind; auto with framed.
Qed.

Lemma framed_while_not_done (operation : Operation) : framed (while_not_done operation).
Proof. intros a v w. unfold while_not_done. cbn [polls reframe]. apply framed_poll. Qed.

Lemma framed_Promise_all_map {A B} (f : A -> IO B) (items : list A) :
  (forall x, framed (f x)) -> framed (Promise_all_map f items).
Proof.
  intros Hf. induction items as [|x rest IH]; cbn [Promise_all_map]; [apply framed_ret|].
  apply framed_bind; [apply Hf|]. intros y.
  apply framed_bind; [apply IH|]. intros ys. apply framed_ret.
Qed.

Lemma framed_generateReferenceImage `{Runtime} (place : string) (ratio : AspectRatio) :
  framed (generateReferenceImage place ratio).
Proof.
  unfold generateReferenceImage. apply framed_try_catch; [|auto with framed].
  apply framed_bind; [auto with framed|]. intros reply.
  destruct (first_inline_image (response_parts reply)); auto with framed.
Qed.

Lemma framed_generateDroneVideo `{Runtime}
    (imageBase64 prompt : string) (ratio : AspectRatio) :
  framed (generateDroneVideo imageBase64 prompt ratio).
Proof.
  unfold generateDroneVideo. apply framed_try_catch; [|auto with framed].
  apply framed_bind; [auto with framed|]. intros submitted.
  apply framed_bind; [apply framed_while_not_done|]. intros final.
  destruct (error final); [auto with framed|].
  destruct (downloadLink final) as [[|c rest]|]; [auto with framed| |auto with framed].
  apply framed_bind; [auto with framed|]. intros key.
  apply framed_bind; [auto with framed|]. intros reply.
  destruct (ok reply); [|auto with framed].
  apply framed_bind; auto with framed.
Qed.

Lemma framed_generateDeepTravelItinerary `{Runtime} (place : string) :
  framed (generateDeepTravelItinerary place).
Proof.
  unfold generateDeepTravelItinerary. apply framed_try_catch; [|auto with framed].
  apply framed_bind; [auto with framed|]. intros reply.
  destruct (text reply) as [[|c rest]|]; [auto with framed| |auto with framed].
  apply framed_try_catch; [|auto with framed].
  destruct (JSON_parse (String c rest)); auto with framed.
Qed.

Lemma framed_searchHiddenSpots `{Runtime} (place : string) :
  framed (searchHiddenSpots place).
Proof.
  unfold searchHiddenSpots. apply framed_try_catch; [|auto with framed].
  apply framed_bind; [auto with framed|]. intros reply.
  destruct (text reply) as [[|c rest]|]; [auto with framed| |auto with framed].
  apply framed_try_catch; [|auto with framed].
  destruct (JSON_parse (String c rest)) as [[]|]; cbn [slice_0_5]; auto with framed.
Qed.

Lemma framed_generateLocationPreviews (place : string) :
  framed (generateLocationPreviews place).
Proof.
  unfold generateLocationPreviews. apply framed_try_catch; [|auto with framed].
  apply framed_bind; [|auto with framed].
  apply framed_Promise_all_map. intros prompt.
  apply framed_try_catch; [|auto with framed].
  apply framed_bind; auto with framed.
Qed.

Lemma framed_generateSpotImage (spotName place : string) :
  framed (generateSpotImage spotName place).
Proof.
  unfold generateSpotImage. apply framed_try_catch; [|auto with framed].
  apply framed_bind; auto with framed.
Qed.

Lemma reframe_same (w : World) : reframe (agent w) (veo w) w = w.
Proof. destruct w. reflexivity. Qed.

(** X16: none of the six service functions reads or writes the state of
    the components: started on any other component state they end with the
    same outcome, the same log, clock and scripted replies, and leave that
    state as it was. *)
Theorem services_leave_component_state_alone `{Runtime} :
  (forall place, framed (generateLocationPreviews place)) /\
  (forall name place, framed (generateSpotImage name place)) /\
  (forall place, framed (generateDeepTravelItinerary place)) /\
  (forall place, framed (searchHiddenSpots place)) /\
  (forall place ratio, framed (generateReferenceImage place ratio)) /\
  (forall image prompt ratio, framed (generateDroneVideo image prompt ratio)) /\
  (forall image prompt ratio w,
     agent (snd (generateDroneVideo image prompt ratio w)) = agent w /\
     veo (snd (generateDroneVideo image prompt ratio w)) = veo w).
Proof.
  repeat split;
    auto using framed_generateLocationPreviews, framed_generateSpotImage,
      framed_generateDeepTravelItinerary, framed_searchHiddenSpots,
      framed_generateReferenceImage, framed_generateDroneVideo.
  - rewrite <- (reframe_same w) at 1.
    rewrite (framed_generateDroneVideo _ _ _ (agent w) (veo w) w). reflexivity.
  - rewrite <- (reframe_same w) at 1.
    rewrite (framed_generateDroneVideo _ _ _ (agent w) (veo w) w). reflexivity.
Qed.

(** ** The video handler *)

Ltac as_reframed base :=
  match goal with
  | |- context [{| service := service base; polls := polls base; now := now base;
                   log := log base; agent := ?a; veo := ?v |}] =>
      change {| service := service base; polls := polls base; now := now base;
                log := log base; agent := a; veo := v |}
        with (reframe a v base)
  end.

Lemma drone_rejection_message `{Runtime}
    (imageBase64 prompt : string) (ratio : AspectRatio) (w w' : World) (e : JSError) :
  generateDroneVideo imageBase64 prompt ratio w = (Throw e, w') -> err_message e <> "".
Proof.
  intros Hrun. destruct (try_catch_formats _ _ _ _ Hrun) as (cause & ->).
  apply formatError_nonempty.
Qed.

Lemma reference_rejection_message `{Runtime}
    (place : string) (ratio : AspectRatio) (w w' : World) (e : JSError) :
  generateReferenceImage place ratio w = (Throw e, w') -> err_message e <> "".
Proof.
  intros Hrun. destruct (try_catch_formats _ _ _ _ Hrun) as (cause & ->).
  apply formatError_nonempty.
Qed.

(** X17: once the reference image is there, [handleGenerate] ends as the
    video call does.  A fulfilled call leaves status "completed" with its
    URL; a rejected one leaves status "error" with the rejection's message
    (never the handler's default text); in both cases the progress text is
    emptied.  While the call is unsettled the handler is too, the status
    stays "generating" and the progress text is the one of the video stage.
    Location, aspect ratio and the planner's state are never changed. *)
Theorem video_handler_outcomes `{Runtime} (w w1 : World) (image : string) :
  locationName (veo w) <> "" ->
  generateReferenceImage (locationName (veo w)) (aspectRatio (veo w)) w
  = (Return image, w1) ->
  (forall url w2,
     generateDroneVideo image (drone_prompt (locationName (veo w)))
       (aspectRatio (veo w)) w1 = (Return url, w2) ->
     handleGenerate w
     = (Return tt,
        reframe (agent w)
          {| locationName := locationName (veo w);
             videoState := {| status := Completed; videoUri := Some url;
                              video_error := None |};
             aspectRatio := aspectRatio (veo w); loadingStep := "" |} w2)) /\
  (forall e w2,
     generateDroneVideo image (drone_prompt (locationName (veo w)))
       (aspectRatio (veo w)) w1 = (Throw e, w2) ->
     handleGenerate w
     = (Return tt,
        reframe (agent w)
          {| locationName := locationName (veo w);
             videoState := {| status := Errored; videoUri := None;
                              video_error := Some (err_message e) |};
             aspectRatio := aspectRatio (veo w); loadingStep := "" |} w2)) /\
  (forall w2,
     generateDroneVideo image (drone_prompt (locationName (veo w)))
       (aspectRatio (veo w)) w1 = (Unsettled, w2) ->
     handleGenerate w
     = (Unsettled,
        reframe (agent w)
          {| locationName := locationName (veo w);
             videoState := {| status := Generating; videoUri := None;
                              video_error := None |};
             aspectRatio := aspectRatio (veo w);
             loadingStep := "Simulating drone flight physics (Veo 3.1)..." |} w2)).
Proof.
  intros Hfilled Hreference.
  assert (forall r w2,
            generateDroneVideo image (drone_prompt (locationName (veo w)))
              (aspectRatio (veo w)) w1 = (r, w2) ->
            handleGenerate w
            = match r with
              | Return url =>
                  (Return tt,
                   reframe (agent w)
                     {| locationName := locationName (veo w);
                        videoState := {| status := Completed; videoUri := Some url;
                                         video_error := None |};
                        aspectRatio := aspectRatio (veo w); loadingStep := "" |} w2)
              | Throw e =>
                  (Return tt,
                   reframe (agent w)
                     {| locationName := locationName (veo w);
                        videoState :=
                          {| status := Errored; videoUri := None;
                             video_error :=
                               Some (JSString.or_else (err_message e) "Generation failed") |};
                        aspectRatio := aspectRatio (veo w); loadingStep := "" |} w2)
              | Unsettled =>
                  (Unsettled,
                   reframe (agent w)
                     {| locationName := locationName (veo w);
                        videoState := {| status := Generating; videoUri := None;
                                         video_error := None |};
                        aspectRatio := aspectRatio (veo w);
                        loadingStep := "Simulating drone flight physics (Veo 3.1)..." |} w2)
              end) as Hcases.
  { intros r w2 Hvideo.
    unfold handleGenerate, bind at 1, get_veo.
    rewrite (truthy_nonempty _ Hfilled). io_run.
    as_reframed w. rewrite framed_generateReferenceImage, Hreference. cbn.
    as_reframed w1. fold (drone_prompt (locationName (veo w))).
    rewrite framed_generateDroneVideo, Hvideo. cbn.
    destruct r; reflexivity. }
  split; [|split].
  - intros url w2 Hvideo. exact (Hcases _ _ Hvideo).
  - intros e w2 Hvideo. rewrite (Hcases _ _ Hvideo).
    rewrite (or_else_nonempty _ _ (drone_rejection_message _ _ _ _ _ _ Hvideo)).
    reflexivity.
  - intros w2 Hvideo. exact (Hcases _ _ Hvideo).
Qed.

Lemma video_handler_outcomes_witness :
  exists w',
    @handleGenerate (Stub.runtime []) (Stub.filming [inr Stub.pending_job; inr Stub.finished_job])
    = (Return tt, w') /\
    videoState (veo w')
    = {| status := Completed; videoUri := Some "blob:mp4"; video_error := None |} /\
    loadingStep (veo w') = "" /\
    log w' =
      [CallGenerateContent (reference_request "Kyoto, Japan" Ratio16x9);
       CallGenerateVideos (videos_request "AAAA" (drone_prompt "Kyoto, Japan") Ratio16x9);
       Timer 5000; CallGetVideosOperation Stub.pending_job;
       Timer 5000; CallGetVideosOperation Stub.pending_job;
       CallFetch "https://videos.example/clip?alt=media&key=k"].
Proof.
  destruct (@video_handler_outcomes (Stub.runtime [])
              (Stub.filming [inr Stub.pending_job; inr Stub.finished_job])
              (snd (generateReferenceImage "Kyoto, Japan" Ratio16x9
                      (Stub.filming [inr Stub.pending_job; inr Stub.finished_job])))
              "data:image/png;base64,AAAA" ltac:(discriminate) eq_refl)
    as (Hfulfilled & _ & _).
  eexists. split; [exact (Hfulfilled "blob:mp4" _ eq_refl)|]. repeat split.
Defined.

Lemma generateReferenceImage_log `{Runtime}
    (place : string) (ratio : AspectRatio) (w : World) :
  snd (generateReferenceImage place ratio w)
  = logged [CallGenerateContent (reference_request place ratio)] w.
Proof.
  unfold generateReferenceImage. io_run.
  destruct (generateContent (service w) (reference_request place ratio)) as [e|reply];
    cbn; [reflexivity|].
  destruct (first_inline_image (response_parts reply)); reflexivity.
Qed.

(** X18: when the reference image fails, the pipeline stops: [handleGenerate]
    ends with status "error" and the rejection's message, the progress text
    emptied, and the image request is the only request; no video job is
    submitted and nothing is polled. *)
Theorem reference_failure_submits_no_job `{Runtime} (w w1 : World) (e : JSError) :
  locationName (veo w) <> "" ->
  generateReferenceImage (locationName (veo w)) (aspectRatio (veo w)) w = (Throw e, w1) ->
  handleGenerate w
  = (Return tt,
     reframe (agent w)
       {| locationName := locationName (veo w);
          videoState := {| status := Errored; videoUri := None;
                           video_error := Some (err_message e) |};
          aspectRatio := aspectRatio (veo w); loadingStep := "" |} w1) /\
  log w1 =
    (log w ++ [CallGenerateContent
                 (reference_request (locationName (veo w)) (aspectRatio (veo w)))])%list /\
  polls w1 = polls w /\
  now w1 = now w.
Proof.
  intros Hfilled Hreference. split.
  - unfold handleGenerate, bind at 1, get_veo.
    rewrite (truthy_nonempty _ Hfilled). io_run.
    as_reframed w. rewrite framed_generateReferenceImage, Hreference. cbn.
    rewrite (or_else_nonempty _ _ (reference_rejection_message _ _ _ _ _ Hreference)).
    reflexivity.
  - pose proof (generateReferenceImage_log (locationName (veo w)) (aspectRatio (veo w)) w)
      as Hlog.
    rewrite Hreference in Hlog. cbn [snd] in Hlog. subst w1. repeat split.
Qed.

Lemma reference_failure_submits_no_job_witness :
  exists w',
    @handleGenerate (Stub.runtime []) (Stub.world Stub.down [] (Stub.agent0 "" "" None)
                                         (Stub.veo0 "Kyoto, Japan"))
    = (Return tt, w') /\
    status (videoState (veo w')) = Errored /\
    video_error (videoState (veo w'))
    = Some "Service overloaded or unavailable. Please try again later." /\
    length (log w') = 1.
Proof.
  destruct (@reference_failure_submits_no_job (Stub.runtime [])
              (Stub.world Stub.down [] (Stub.agent0 "" "" None) (Stub.veo0 "Kyoto, Japan"))
              _ (Error "Service overloaded or unavailable. Please try again later.")
              ltac:(discriminate) (surjective_pairing _))
    as (Hrun & _).
  eexists. split; [exact Hrun|]. repeat split.
Defined.

(** ** Handlers end in state, not in rejections *)

Lemma itinerary_outcome_settles `{Runtime} (reply : JSError + GenerateContentResponse) :
  itinerary_outcome reply <> Unsettled.
Proof.
  unfold itinerary_outcome. destruct reply as [e|response]; [discriminate|].
  destruct (text response) as [[|c rest]|]; try discriminate.
  destruct (JSON_parse (String c rest)); discriminate.
Qed.

Lemma hidden_spots_outcome_settles `{Runtime} (reply : JSError + GenerateContentResponse) :
  hidden_spots_outcome reply <> Unsettled.
Proof.
  unfold hidden_spots_outcome. destruct reply as [e|response]; [discriminate|].
  destruct (text response) as [[|c rest]|]; try discriminate.
  destruct (JSON_parse (String c rest)) as [[]|]; discriminate.
Qed.

Lemma spot_image_settles `{Runtime} (place : string) (spot : JValue) (w : World) :
  fst (spot_image place spot w) <> Unsettled.
Proof.
  destruct spot; [cbn; discriminate|..];
    rewrite spot_image_run by discriminate; discriminate.
Qed.

Lemma forEach_settles `{Runtime} (place : string) (spots : list JValue) (w : World) :
  fst (Promise_all_map (spot_image place) spots w) <> Unsettled.
Proof.
  revert w. induction spots as [|spot spots IH]; intros w; [discriminate|].
  cbn [Promise_all_map]. unfold bind at 1.
  pose proof (spot_image_settles place spot w) as Hspot.
  destruct (spot_image place spot w) as [[[]|e|] w1]; cbn [fst] in *;
    [|discriminate|congruence].
  unfold bind. pose proof (IH w1) as Hrest.
  destruct (Promise_all_map (spot_image place) spots w1) as [[done|e|] w2]; cbn [fst] in *;
    [discriminate|discriminate|congruence].
Qed.

(** X19: the handlers never reject.  [handleDeepPlan], [handleHiddenSpots]
    and [handleSendMessage] always fulfil, and once their guard is passed
    the loading flag is off again at the end; [handleGenerate] fulfils or
    stays unsettled with its video call. *)
Theorem handlers_never_reject `{Runtime} (w : World) :
  fst (handleDeepPlan w) = Return tt /\
  fst (handleHiddenSpots w) = Return tt /\
  fst (handleSendMessage w) = Return tt /\
  (fst (handleGenerate w) = Return tt \/ fst (handleGenerate w) = Unsettled) /\
  (location (agent w) <> "" ->
   loading (agent (snd (handleDeepPlan w))) = false /\
   loading (agent (snd (handleHiddenSpots w))) = false).
Proof.
  assert (exists w', handleDeepPlan w = (Return tt, w') /\
                     (location (agent w) <> "" -> loading (agent w') = false))
    as (wp & Hplan & Hplan_loading).
  { unfold handleDeepPlan, bind at 1, get_agent.
    destruct (location (agent w)) as [|c rest] eqn:Hplace;
      [eexists; split; [reflexivity|congruence]|].
    io_run. rewrite generateLocationPreviews_run. cbn.
    rewrite generateDeepTravelItinerary_run. cbn.
    pose proof (itinerary_outcome_settles
                  (generateContent (service w) (itinerary_request (String c rest)))) as Hsettles.
    destruct (itinerary_outcome _); [eexists; split; reflexivity..|congruence]. }
  assert (exists w', handleHiddenSpots w = (Return tt, w') /\
                     (location (agent w) <> "" -> loading (agent w') = false))
    as (ws & Hspots & Hspots_loading).
  { unfold handleHiddenSpots, bind at 1, get_agent.
    destruct (location (agent w)) as [|c rest] eqn:Hplace;
      [eexists; split; [reflexivity|congruence]|].
    io_run. rewrite searchHiddenSpots_run. cbn.
    pose proof (hidden_spots_outcome_settles
                  (generateContent (service w) (hidden_spots_request (String c rest))))
      as Hsettles.
    destruct (hidden_spots_outcome _) as [result|e|]; cbn;
      [|eexists; split; reflexivity|congruence].
    destruct result; cbn; try (eexists; split; reflexivity).
    unfold bind.
    match goal with
    | |- context [Promise_all_map (spot_image ?place) ?spots ?w1] =>
        pose proof (forEach_settles place spots w1) as Hfan;
        destruct (Promise_all_map (spot_image place) spots w1) as [[done|e|] w2]
    end; cbn in *; [eexists; split; reflexivity..|congruence]. }
  rewrite Hplan, Hspots. cbn [fst snd].
  split; [reflexivity|]. split; [reflexivity|]. split; [|split].
  - unfold handleSendMessage, bind at 1, get_agent.
    destruct (negb (JSString.truthy (JSString.trim (chatInput (agent w))))
              || is_null (chatRef (agent w))); [reflexivity|].
    io_run. destruct (chatRef (agent w)) as [chat|]; io_run; [|reflexivity].
    destruct (sendMessage (service w) chat (chatInput (agent w))); reflexivity.
  - assert (exists r w', handleGenerate w = (r, w') /\ (r = Return tt \/ r = Unsettled))
      as (r & wv & -> & Hkind); [|exact Hkind].
    unfold handleGenerate, bind at 1, get_veo.
    destruct (locationName (veo w)) as [|c rest]; [eexists _, _; split; [reflexivity|auto]|].
    io_run.
    match goal with
    | |- context [generateReferenceImage ?place ?ratio ?w1] =>
        destruct (generateReferenceImage place ratio w1) as [[image|e|] w2]
    end; cbn; [|eexists _, _; split; [reflexivity|auto]..].
    match goal with
    | |- context [generateDroneVideo ?image ?prompt ?ratio ?w1] =>
        destruct (generateDroneVideo image prompt ratio w1) as [[url|e|] w3]
    end; cbn; eexists _, _; (split; [reflexivity|auto]).
  - intros Hfilled. split; [apply Hplan_loading|apply Hspots_loading]; exact Hfilled.
Qed.

(** * Further properties of the prompts *)

Lemma prefix_append (sub a b : string) :
  String.prefix sub a = true -> String.prefix sub (a +:+ b) = true.
Proof.
  revert a. induction sub as [|c sub IH]; intros a;
    [intros _; destruct (a +:+ b); reflexivity|].
  destruct a as [|c' a]; [discriminate|].
  change (String c' a +:+ b) with (String c' (a +:+ b)).
  cbn [String.prefix]. destruct (Ascii.ascii_dec c c'); [apply IH|discriminate].
Qed.

Lemma prefix_self (s rest : string) : String.prefix s (s +:+ rest) = true.
Proof.
  induction s as [|c s IH]; [destruct rest; reflexivity|].
  change (String c s +:+ rest) with (String c (s +:+ rest)).
  cbn [String.prefix]. destruct (Ascii.ascii_dec c c); [exact IH|congruence].
Qed.

Lemma prefix_whole (s : string) : String.prefix s s = true.
Proof.
  induction s as [|c s IH]; [reflexivity|].
  cbn [String.prefix]. destruct (Ascii.ascii_dec c c); [exact IH|congruence].
Qed.

Lemma includes_append_l (a b sub : string) :
  JSString.includes a sub = true -> JSString.includes (a +:+ b) sub = true.
Proof.
  induction a as [|c a IH]; rewrite includes_unfold.
  - rewrite orb_false_r. intros Hprefix. destruct sub; [|discriminate].
    rewrite includes_unfold. destruct ("" +:+ b); reflexivity.
  - intros [Hprefix|Hrest]%orb_prop.
    + apply includes_here, prefix_append, Hprefix.
    + change (String c a +:+ b) with (String c (a +:+ b)).
      rewrite includes_unfold, (IH Hrest). apply orb_true_r.
Qed.

Lemma append_associative (a b c : string) : (a +:+ b) +:+ c = a +:+ (b +:+ c).
Proof.
  induction a as [|x a IH]; [reflexivity|].
  change ((String x a +:+ b) +:+ c) with (String x ((a +:+ b) +:+ c)).
  rewrite IH. reflexivity.
Qed.

Lemma includes_middle (a s b : string) : JSString.includes (a +:+ s +:+ b) s = true.
Proof. apply includes_append, includes_here, prefix_self. Qed.

(** X20: what the user typed reaches the service verbatim: every prompt
    contains the location as it was given (the spot prompt also the spot's
    name between double quotes), and the chat session's system instruction
    contains the serialised plan. *)
Theorem prompts_carry_their_input `{Runtime} (place name context : string) :
  Forall (fun prompt => JSString.includes prompt place = true) (preview_prompts place) /\
  JSString.includes (itinerary_prompt place) place = true /\
  JSString.includes (hidden_spots_prompt place) place = true /\
  JSString.includes (spot_prompt name place) place = true /\
  JSString.includes (spot_prompt name place) (q name) = true /\
  (forall ratio, JSString.includes (reference_prompt place ratio) place = true) /\
  JSString.includes (drone_prompt place) place = true /\
  JSString.includes (chat_systemInstruction (createTravelChat context)) context = true.
Proof.
  split; [|split; [|split; [|split; [|split; [|split; [|split]]]]]].
  - unfold preview_prompts. repeat constructor; apply includes_middle.
  - unfold itinerary_prompt. cbn [JSString.join]. apply includes_append_l, includes_middle.
  - unfold hidden_spots_prompt. cbn [JSString.join]. apply includes_append_l, includes_middle.
  - unfold spot_prompt. do 5 apply includes_append. apply includes_here, prefix_self.
  - unfold spot_prompt, q. apply includes_append.
    rewrite <- !append_associative. apply includes_here.
    do 2 apply prefix_append. apply prefix_self.
  - intros ratio. unfold reference_prompt. apply includes_middle.
  - unfold drone_prompt. apply includes_middle.
  - unfold createTravelChat, chat_instruction. cbn [chat_systemInstruction JSString.join].
    do 4 apply includes_append. apply includes_append_l.
    apply includes_append, includes_here, prefix_whole.
Qed.

(** * The location finder *)

Lemma foldl_without_maps (chunks : list GroundingChunk) (seen : option string * option string) :
  Forall (fun chunk => maps chunk = None) chunks ->
  foldl take_maps_chunk seen chunks = seen.
Proof.
  revert seen. induction chunks as [|chunk chunks IH]; intros seen Hnone; [reflexivity|].
  inversion Hnone as [|? ? Hchunk Hrest]; subst. cbn [foldl].
  unfold take_maps_chunk at 2. rewrite Hchunk. apply IH, Hrest.
Qed.

(** X21: [searchLocationWithMaps] takes link and title from the last grounding
    chunk that has a [maps] part and skips chunks without one; with no such
    chunk both are the empty string.  A reply without text, or with an
    empty one, is rejected as "No information found for this location."
    whatever its chunks say. *)
Theorem last_maps_chunk_wins (query : string) (response : GroundedResponse) :
  (forall c rest leading source trailing,
     grounded_text response = Some (String c rest) ->
     grounding_chunks response
     = Some (leading ++ {| maps := Some source |} :: trailing)%list ->
     Forall (fun chunk => maps chunk = None) trailing ->
     searchLocationWithMaps query (inr response)
     = inr {| found_text := String c rest;
              mapLink := maps_uri source; mapTitle := maps_title source |}) /\
  (forall c rest,
     grounded_text response = Some (String c rest) ->
     (grounding_chunks response = None \/
      exists chunks, grounding_chunks response = Some chunks /\
                     Forall (fun chunk => maps chunk = None) chunks) ->
     searchLocationWithMaps query (inr response)
     = inr {| found_text := String c rest; mapLink := Some ""; mapTitle := Some "" |}) /\
  (grounded_text response = None \/ grounded_text response = Some "" ->
   searchLocationWithMaps query (inr response)
   = inl (Error "AI Request Failed: No information found for this location.")).
Proof.
  unfold searchLocationWithMaps. split; [|split].
  - intros c rest leading source trailing -> -> Htrailing.
    rewrite foldl_app. cbn [foldl]. rewrite foldl_without_maps by exact Htrailing.
    reflexivity.
  - intros c rest -> [-> | (chunks & -> & Hnone)]; [reflexivity|].
    rewrite foldl_without_maps by exact Hnone. reflexivity.
  - intros [-> | ->]; reflexivity.
Qed.

Lemma last_maps_chunk_wins_witness :
  searchLocationWithMaps "Mount Fuji"
    (inr (Finder.grounded
            [{| maps := Some {| maps_uri := Some "https://maps.example/old";
                                maps_title := Some "Old" |} |};
             {| maps := Some Finder.fuji |};
             {| maps := None |}]))
  = inr {| found_text := "A volcano on Honshu.";
           mapLink := Some "https://maps.example/fuji"; mapTitle := Some "Mount Fuji" |}.
Proof.
  destruct (last_maps_chunk_wins "Mount Fuji"
              (Finder.grounded
                 [{| maps := Some {| maps_uri := Some "https://maps.example/old";
                                     maps_title := Some "Old" |} |};
                  {| maps := Some Finder.fuji |};
                  {| maps := None |}])) as [Hlast _].
  apply (Hlast _ _ [{| maps := Some {| maps_uri := Some "https://maps.example/old";
                                       maps_title := Some "Old" |} |}]
           Finder.fuji [{| maps := None |}] eq_refl eq_refl).
  repeat constructor.
Defined.

Lemma search_rejection_message (query : string) (reply : JSError + GroundedResponse)
    (err : JSError) :
  searchLocationWithMaps query reply = inl err -> err_message err <> "".
Proof.
  unfold searchLocationWithMaps. destruct reply as [e|response].
  - intros [= <-]. apply formatError_nonempty.
  - destruct (grounded_text response) as [[|c rest]|]; try discriminate;
      intros [= <-]; apply formatError_nonempty.
Qed.

(** The call with its request: one request leaves, and the reply settles the
    call as [searchLocationWithMaps] says. *)
Lemma maps_search_run (query : string) (w : World) :
  Maps.searchLocationWithMaps query w
  = (match searchLocationWithMaps query (generateContent (service w) (maps_request query)) with
     | inl e => Throw e
     | inr found => Return found
     end,
     logged [CallGenerateContent (maps_request query)] w).
Proof.
  unfold Maps.searchLocationWithMaps, searchLocationWithMaps, grounded_text. io_run.
  destruct (generateContent (service w) (maps_request query)) as [e|response]; cbn;
    [reflexivity|].
  destruct (text response) as [[|c rest]|]; reflexivity.
Qed.

(** X22: [handleSearch] does nothing on a blank query: no request leaves, the
    state is kept and the application is not told anything.  Otherwise one
    request leaves, to the maps-grounded text model, its prompt quoting the
    query as typed, and the handler ends with loading off.  On success the
    result is stored and the application is told once, the name being the
    query as typed (not trimmed), so the planner then starts with a
    non-empty location; on failure the old result is gone, the application
    is not told, and the error shown is the rejection's own message. *)
Theorem search_handler_outcomes (st : LocationSearchState) (w : World)
    (previous : option LocationData) :
  (all_whitespace (ls_query st) = true -> handleSearch st w = (Return (st, []), w)) /\
  (all_whitespace (ls_query st) = false ->
   exists st' reported,
     handleSearch st w
     = (Return (st', reported),
        logged
          [CallGenerateContent
             {| gc_model := "gemini-2.5-flash";
                gc_contents :=
                  ContentsText
                    ("Find the location '" +:+ ls_query st +:+
                     "'. Return a brief summary of what it is, exactly where it is, and its map coordinates if possible.");
                gc_config :=
                  Some {| responseMimeType := None; thinkingBudget := None;
                          imageConfig_aspectRatio := None;
                          tools := Some [GoogleMaps];
                          systemInstruction :=
                            Some "You are a location finder helper. Be concise." |} |}]
          w) /\
     ls_loading st' = false /\
     ls_query st' = ls_query st /\
     match searchLocationWithMaps (ls_query st)
             (generateContent (service w) (maps_request (ls_query st))) with
     | inr data =>
         ls_result st' = Some data /\
         ls_error st' = None /\
         reported
         = [{| ld_name := ls_query st; ld_mapLink := mapLink data;
               ld_summary := Some (found_text data) |}] /\
         Forall (fun loc =>
                   planner_location (handleLocationFound loc previous) = ls_query st /\
                   planner_location (handleLocationFound loc previous) <> "")
           reported
     | inl err =>
         ls_result st' = None /\
         ls_error st' = Some (err_message err) /\
         err_message err <> "" /\
         reported = []
     end).
Proof.
  unfold handleSearch. split.
  - intros Hblank%trim_empty_iff. rewrite Hblank. reflexivity.
  - intros Htyped. rewrite (trim_truthy _ Htyped). cbn [negb].
    unfold bind, try_catch. rewrite maps_search_run.
    destruct (searchLocationWithMaps (ls_query st)
                (generateContent (service w) (maps_request (ls_query st)))) as [err|data]
      eqn:Hsearch; cbn.
    + pose proof (search_rejection_message _ _ _ Hsearch) as Hmessage.
      rewrite (or_else_nonempty _ _ Hmessage).
      eexists _, _. split; [reflexivity|]. repeat split. exact Hmessage.
    + eexists _, _. split; [reflexivity|]. repeat split. constructor; [|constructor].
      unfold planner_location, handleLocationFound. cbn.
      destruct (ls_query st) as [|c rest]; [discriminate|]. split; [reflexivity|discriminate].
Qed.

Lemma search_handler_outcomes_witness :
  handleSearch Finder.typed
    (Stub.world (Finder.service [{| maps := Some Finder.fuji |}]) []
       (Stub.agent0 "" "" None) (Stub.veo0 ""))
  = (Return
       ({| ls_query := " Mount Fuji "; ls_loading := false; ls_error := None;
           ls_result :=
             Some {| found_text := "A volcano on Honshu.";
                     mapLink := Some "https://maps.example/fuji";
                     mapTitle := Some "Mount Fuji" |} |},
        [{| ld_name := " Mount Fuji "; ld_mapLink := Some "https://maps.example/fuji";
            ld_summary := Some "A volcano on Honshu." |}]),
     logged [CallGenerateContent (maps_request " Mount Fuji ")]
       (Stub.world (Finder.service [{| maps := Some Finder.fuji |}]) []
          (Stub.agent0 "" "" None) (Stub.veo0 ""))) /\
  handleSearch
    {| ls_query := "   "; ls_loading := false; ls_error := None; ls_result := None |}
    Stub.blank_world
  = (Return
       ({| ls_query := "   "; ls_loading := false; ls_error := None; ls_result := None |}, []),
     Stub.blank_world).
Proof.
  split; [|apply (search_handler_outcomes
                    {| ls_query := "   "; ls_loading := false; ls_error := None;
                       ls_result := None |} Stub.blank_world None); reflexivity].
  destruct (search_handler_outcomes Finder.typed
              (Stub.world (Finder.service [{| maps := Some Finder.fuji |}]) []
                 (Stub.agent0 "" "" None) (Stub.veo0 "")) None) as [_ Htyped].
  destruct (Htyped eq_refl) as (st' & reported & Hrun & Hloading & Hquery & Hfound).
  cbn in Hfound. destruct Hfound as (Hresult & Herror & Hreported & _).
  rewrite Hrun. destruct st' as [query' loading' error' result'].
  cbn in Hloading, Hquery, Hresult, Herror. subst. reflexivity.
Defined.

(** * Saved files and the crowd chart *)






Example plan_filename_kyoto :
  plan_filename "Kyoto,  Japan" = "travel_plan_Kyoto,_Japan.txt".
Proof. reflexivity. Qed.

(** X24: the crowd chart never draws a busier month in a calmer colour: with
    [low <= high], red for [low] means red for [high] and green for [high]
    means green for [low].  A bar is at least 5 percent high and never lower
    than its score; there is no upper limit: a score above 100 gives a bar
    above 100 percent. *)
Theorem crowd_chart_is_monotone (low high : Q) :
  (low <= high)%Q ->
  (getCrowdColor low = "bg-red-400 shadow-red-200" ->
   getCrowdColor high = "bg-red-400 shadow-red-200") /\
  (getCrowdColor high = "bg-emerald-400 shadow-emerald-200" ->
   getCrowdColor low = "bg-emerald-400 shadow-emerald-200") /\
  (5 <= bar_height low)%Q /\
  (low <= bar_height low)%Q /\
  (bar_height low <= bar_height high)%Q /\
  ((100 < low)%Q -> (100 < bar_height low)%Q).
Proof.
  intros Horder. unfold getCrowdColor, bar_height.
  destruct (Qle_bool low 70) eqn:Hl70; destruct (Qle_bool high 70) eqn:Hh70;
    destruct (Qle_bool low 40) eqn:Hl40; destruct (Qle_bool high 40) eqn:Hh40;
    destruct (Qle_bool 5 low) eqn:Hl5; destruct (Qle_bool 5 high) eqn:Hh5;
    cbn [negb];
    repeat match goal with
           | H : Qle_bool _ _ = true |- _ => apply Qle_bool_iff in H
           | H : Qle_bool _ _ = false |- _ =>
               apply not_true_iff_false in H; rewrite Qle_bool_iff in H;
               apply Qnot_le_lt in H
           end;
    repeat split; intros; try discriminate; try reflexivity; try lra.
Qed.

Lemma crowd_chart_is_monotone_witness :
  getCrowdColor 45 = "bg-yellow-400 shadow-yellow-200" /\
  getCrowdColor 250 = "bg-red-400 shadow-red-200" /\
  (100 < bar_height 250)%Q.
Proof.
  destruct (crowd_chart_is_monotone 250 250 (Qle_refl 250)) as (_ & _ & _ & _ & _ & Hover).
  split; [reflexivity|]. split; [reflexivity|]. apply Hover. reflexivity.
Defined.
